(** * XP bot: a shallow embedding of [xpbot.py] and its properties

    The plugin keeps one row [(user_id, xp, last_msg)] per chat account in
    the table [xp_users], awards XP on messages subject to a cooldown and
    answers the commands [level], [profile], [setxp], [leaderboard] and [xp].

    Modelling decisions.
    - A Python [str] is a Rocq [string] holding the UTF-8 bytes of the text.
      The sigil ["@"] and the separator [":"] are ASCII, so prefix tests,
      membership tests and [u[1:]] on a string starting with ["@"] agree on
      bytes and on code points.
    - XP values and levels are unbounded integers ([Z]); [//] is [Z.div],
      which floors like Python's.
    - Clock values ([time.time()], the [REAL] column [last_msg]) are exact
      rationals ([Q]); rounding of binary floating point is not modelled.
    - The table is a finite map from [user_id] to the rest of the row.  The
      handlers run one at a time; every database access and every reply is
      appended to a log, so that "no ledger access" is a property of the log.
    - The order in which the store returns rows of equal xp is not fixed by
      the query; it is a parameter of [cmd_leaderboard]. *)

From Stdlib Require Import ZArith QArith Lqa String Ascii Sorted Permutation.
From stdpp Require Import gmap strings list sorting pretty.

Open Scope string_scope.
Open Scope list_scope.
Open Scope Z_scope.

(** ** Configuration *)

Definition XP_PER_MESSAGE : Z := 5.
Definition XP_PER_LEVEL : Z := 100.
Definition COOLDOWN : Q := 5%Q.

Definition ADMINS : gset string := {[ "@admin:j5.chat" ]}.

Definition BADGES : gmap Z string :=
  <[1 := "🥉 Bronze"]>
  (<[5 := "🥈 Silver"]>
  (<[10 := "🥇 Gold"]>
  (<[20 := "🏆 Platinum"]> ∅))).

Definition IGNORE_USERS : gset string :=
  {[ "@ticketbot:j5.chat"; "@karma:j5.chat"; "@mee6:j5.chat";
     "@mee6bot:j5.chat"; "@antithread:j5.chat"; "@poll:j5.chat";
     "@helpdesk:j5.chat"; "@mee6xp:j5.chat" ]}.

(** ** Python string primitives *)

Module PyStr.

Definition enc (bytes : list N) : list ascii := map ascii_of_N bytes.

(** The characters [str.strip()] removes: the code points for which
    [str.isspace] holds, each given by its UTF-8 encoding. *)
Definition WHITESPACE : list (list ascii) :=
  [ enc [9]; enc [10]; enc [11]; enc [12]; enc [13];
    enc [28]; enc [29]; enc [30]; enc [31]; enc [32];
    enc [194; 133]; enc [194; 160];
    enc [225; 154; 128];
    enc [226; 128; 128]; enc [226; 128; 129]; enc [226; 128; 130];
    enc [226; 128; 131]; enc [226; 128; 132]; enc [226; 128; 133];
    enc [226; 128; 134]; enc [226; 128; 135]; enc [226; 128; 136];
    enc [226; 128; 137]; enc [226; 128; 138];
    enc [226; 128; 168]; enc [226; 128; 169]; enc [226; 128; 175];
    enc [226; 129; 159];
    enc [227; 128; 128] ]%N.

(** [strip_tok w s] removes the prefix [w] from [s], if [s] starts with it. *)
Fixpoint strip_tok (w s : list ascii) : option (list ascii) :=
  match w, s with
  | [], _ => Some s
  | a :: w', b :: s' => if Ascii.eqb a b then strip_tok w' s' else None
  | _ :: _, [] => None
  end.

(** Removes one leading token of [toks], if there is one. *)
Fixpoint drop_tok (toks : list (list ascii)) (s : list ascii)
  : option (list ascii) :=
  match toks with
  | [] => None
  | w :: toks' =>
      match strip_tok w s with
      | Some r => Some r
      | None => drop_tok toks' s
      end
  end.

(** Removes leading tokens as long as there are some; [n] bounds the
    number of rounds, and [length s] rounds always suffice. *)
Fixpoint lstrip_fuel (toks : list (list ascii)) (n : nat) (s : list ascii)
  : list ascii :=
  match n with
  | O => s
  | S n' =>
      match drop_tok toks s with
      | Some r => lstrip_fuel toks n' r
      | None => s
      end
  end.

Definition lstrip_l (s : list ascii) : list ascii :=
  lstrip_fuel WHITESPACE (length s) s.

Definition rstrip_l (s : list ascii) : list ascii :=
  reverse (lstrip_fuel (map reverse WHITESPACE) (length s) (reverse s)).

Definition strip_l (s : list ascii) : list ascii := rstrip_l (lstrip_l s).

(** [s.strip()] *)
Definition strip (s : string) : string :=
  string_of_list_ascii (strip_l (list_ascii_of_string s)).

(** [s.startswith(p)] *)
Definition startswith (s p : string) : bool := String.prefix p s.

(** [c in s] for a one-character string [c] *)
Fixpoint contains (c : ascii) (s : string) : bool :=
  match s with
  | EmptyString => false
  | String a r => Ascii.eqb a c || contains c r
  end.

(** [s[1:]] *)
Definition tail (s : string) : string :=
  match s with
  | EmptyString => EmptyString
  | String _ r => r
  end.

(** [not s] *)
Definition is_empty (s : string) : bool :=
  match s with
  | EmptyString => true
  | String _ _ => false
  end.

End PyStr.

(** ** Helpers of the plugin *)

(** [XpBot.normalize_user] *)
Definition normalize_user (user : string) : string :=
  if PyStr.is_empty user then ""
  else
    let u := PyStr.strip user in
    if PyStr.startswith u "@" && PyStr.contains ":" u then u
    else if PyStr.startswith u "@" then
      let local := PyStr.tail u in
      "@" +:+ local +:+ ":j5.chat"
    else if negb (PyStr.contains ":" u) then "@" +:+ u +:+ ":j5.chat"
    else u.

(** [XpBot.calc_level] *)
Definition calc_level (xp : Z) : Z := Z.div xp XP_PER_LEVEL.

(** [sorted(d.items(), reverse=True)]: the keys of a dict are distinct, so
    the order of the pairs is decided by the milestones alone. *)
Definition milestone_ge (p q : Z * string) : Prop := q.1 ≤ p.1.

#[global] Instance milestone_ge_dec p q : Decision (milestone_ge p q) :=
  Z_le_dec q.1 p.1.

Definition sorted_items_desc (d : gmap Z string) : list (Z * string) :=
  merge_sort milestone_ge (map_to_list d).

(** The loop of [get_badge] over the sorted items. *)
Fixpoint first_badge (items : list (Z * string)) (level : Z) : string :=
  match items with
  | [] => ""
  | (milestone, badge) :: rest =>
      if bool_decide (milestone ≤ level) then badge
      else first_badge rest level
  end.

(** [get_badge] over a given milestone table *)
Definition get_badge_in (badges : gmap Z string) (level : Z) : string :=
  first_badge (sorted_items_desc badges) level.

(** [XpBot.get_badge] *)
Definition get_badge (level : Z) : string := get_badge_in BADGES level.

(** ** The store and the effects of a handler *)

(** The columns [xp] and [last_msg] of a row of [xp_users]; the key of the
    map is [user_id].  [last_msg] is never NULL: [upsert_user], the only
    writer, replaces [None] by [0.0]. *)
Record Row := { row_xp : Z; row_last_msg : Q }.

Inductive Effect :=
| DbSelect (mxid : string)
| DbUpsert (mxid : string) (xp : Z) (last_msg : Q)
| DbSelectTop
| Reply (text : string).

Record World := { db : gmap string Row; log : list Effect }.

Definition M (A : Type) : Type := World → A * World.

Definition ret {A} (a : A) : M A := λ w, (a, w).

Definition bind {A B} (c : M A) (k : A → M B) : M B :=
  λ w, let '(a, w') := c w in k a w'.

Notation "'do' x <- c ; k" := (bind c (λ x, k))
  (at level 10, x name, c at level 99, k at level 200).
Notation "c ;; k" := (bind c (λ _, k))
  (at level 100, k at level 200, right associativity).

Definition emit (e : Effect) : M unit :=
  λ w, (tt, {| db := db w; log := log w ++ [e] |}).

(** The effects a run appends to the log. *)
Definition run {A} (c : M A) (d : gmap string Row) : A * World :=
  c {| db := d; log := [] |}.

(** ** Events *)

Record MessageContent := { body : option string }.

Record MessageEvent := { sender : string; content : option MessageContent }.

(** [not evt.content or not getattr(evt.content, "body", None)] *)
Definition no_body (evt : MessageEvent) : bool :=
  match content evt with
  | None => true
  | Some c =>
      match body c with
      | None => true
      | Some b => PyStr.is_empty b
      end
  end.

(** [x or 0] on a number *)
Definition or_zero (x : Q) : Q := if Qeq_bool x 0 then 0%Q else x.

(** [a < b] on clock values *)
Definition Qltb (a b : Q) : bool := negb (Qle_bool b a).

Definition NL : string := String "010"%char "".

(** A parser for decimal numerals written with ASCII digits.  On text whose
    digits are ASCII it answers as [int(s)] does: whitespace around the
    numeral is ignored (the characters 0x1c to 0x1f are not whitespace
    here), one sign is allowed, single underscores may separate digits, and
    a numeral of more than 4300 digits is refused.  The handlers do not
    depend on it: they take the parser as a parameter. *)
Module PyInt.

(** The whitespace [int] skips: [WHITESPACE] without 0x1c to 0x1f. *)
Definition SKIPPED : list (list ascii) :=
  filter (λ w, w ∉ [PyStr.enc [28]; PyStr.enc [29]; PyStr.enc [30];
                    PyStr.enc [31]]%N) PyStr.WHITESPACE.

Definition skip_l (s : list ascii) : list ascii :=
  let s1 := PyStr.lstrip_fuel SKIPPED (length s) s in
  reverse (PyStr.lstrip_fuel (map reverse SKIPPED) (length s1) (reverse s1)).

Definition digit (c : ascii) : option Z :=
  let n := Z.of_N (N_of_ascii c) in
  if bool_decide (48 ≤ n ≤ 57) then Some (n - 48) else None.

Fixpoint digits (acc : Z) (after_digit : bool) (s : list ascii) : option Z :=
  match s with
  | [] => if after_digit then Some acc else None
  | c :: r =>
      match digit c with
      | Some v => digits (10 * acc + v) true r
      | None =>
          if Ascii.eqb c "_" && after_digit then digits acc false r
          else None
      end
  end.

(** The number of digits of a numeral. *)
Definition digit_count (s : list ascii) : nat :=
  length (omap digit s).

Definition int_decimal (s : string) : option Z :=
  let t := skip_l (list_ascii_of_string s) in
  if decide (4300 < digit_count t)%nat then None
  else
    match t with
    | "-"%char :: r => Z.opp <$> digits 0 false r
    | "+"%char :: r => digits 0 false r
    | r => digits 0 false r
    end.

End PyInt.

(** ** Database access and replies *)

(** [XpBot.get_user_row]: the row [(user_id, xp, last_msg)], if any. *)
Definition get_user_row (mxid : string) : M (option (string * Z * Q)) :=
  λ w,
    (match db w !! mxid with
     | Some r => Some (mxid, row_xp r, row_last_msg r)
     | None => None
     end,
     {| db := db w; log := log w ++ [DbSelect mxid] |}).

(** [XpBot.upsert_user]: insert the row, or overwrite [xp] and [last_msg]
    of the row with this [user_id]. *)
Definition upsert_user (mxid : string) (xp : Z) (last_msg : option Q) : M unit :=
  let last_msg :=
    match last_msg with
    | None => 0%Q
    | Some t => t
    end in
  λ w,
    (tt,
     {| db := <[mxid := {| row_xp := xp; row_last_msg := last_msg |}]> (db w);
        log := log w ++ [DbUpsert mxid xp last_msg] |}).

(** [evt.reply] *)
Definition reply (text : string) : M unit := emit (Reply text).

(** [XpBot.is_admin_or_mod] *)
Definition is_admin_or_mod (evt : MessageEvent) : bool :=
  bool_decide (sender evt ∈ ADMINS).

(** [row[1] if row else 0] *)
Definition xp_of_row (row : option (string * Z * Q)) : Z :=
  match row with
  | Some (_, xp, _) => xp
  | None => 0
  end.

(** [row[2] if row else 0] *)
Definition last_msg_of_row (row : option (string * Z * Q)) : Q :=
  match row with
  | Some (_, _, last_msg) => last_msg
  | None => 0%Q
  end.

Definition level_up_text (mxid : string) (new_level : Z) (badge : string)
  : string :=
  "🎉 " +:+ mxid +:+ " leveled up to **Level " +:+ pretty new_level
        +:+ "**! " +:+ badge.

(** The query of [cmd_leaderboard]:
    [SELECT user_id, xp FROM xp_users ORDER BY xp DESC LIMIT 10].
    The query names no second key, so the order of rows of equal [xp] is
    the store's decision.  That decision is a parameter of the model: it may
    depend on the table and on everything that was written to it, in order,
    and nothing is assumed about it beyond [answers_order_by]. *)
Definition xp_ge (r1 r2 : string * Z) : Prop := r2.2 ≤ r1.2.

#[global] Instance xp_ge_dec r1 r2 : Decision (xp_ge r1 r2) :=
  Z_le_dec r2.2 r1.2.

(** The rows [(user_id, xp)] of the table, in some order. *)
Definition all_rows (d : gmap string Row) : list (string * Z) :=
  prod_map id row_xp <$> map_to_list d.

(** The rows written so far, oldest first. *)
Definition writes (l : list Effect) : list (string * Z * Q) :=
  omap (λ e, match e with DbUpsert m x t => Some (m, x, t) | _ => None end) l.

(** What the store returns for [SELECT user_id, xp ... ORDER BY xp DESC],
    given the writes so far and the table. *)
Abbreviation StoreOrder :=
  (list (string * Z * Q) → gmap string Row → list (string * Z)).

(** The store answers the query: it returns the rows of the table, each
    once, by non-increasing xp. *)
Definition answers_order_by (q : StoreOrder) : Prop :=
  ∀ h d, q h d ≡ₚ all_rows d ∧ StronglySorted xp_ge (q h d).

(** [... LIMIT 10] *)
Definition select_top (q : StoreOrder) (w : World) : list (string * Z) :=
  take 10 (q (writes (log w)) (db w)).

Definition _get_top (q : StoreOrder) : M (list (string * Z)) :=
  λ w, (select_top q w, {| db := db w; log := log w ++ [DbSelectTop] |}).

(** One line of the leaderboard; [i] counts from 1. *)
Definition leaderboard_line (i : nat) (r : string * Z) : string :=
  let user_id := r.1 in
  let xp := r.2 in
  let lvl := calc_level xp in
  let badge := get_badge lvl in
  pretty (Z.of_nat i) +:+ ". " +:+ user_id +:+ " — Level " +:+ pretty lvl
    +:+ " | XP " +:+ pretty xp +:+ " " +:+ badge.

(** ** Handlers *)

Section Handlers.

(** [self.client.mxid], the account of the bot itself *)
Variable client_mxid : string.

(** Python's [int] on a string: [None] stands for [ValueError]. *)
Variable int : string → option Z.

(** The store's answer to the query of the leaderboard. *)
Variable order_by_xp_desc : StoreOrder.

(** [XpBot.on_message]; [now] is the value [time.time()] returns. *)
Definition on_message (now : Q) (evt : MessageEvent) : M unit :=
  if no_body evt then ret tt
  else
    let sender := sender evt in
    if bool_decide (sender = client_mxid) || bool_decide (sender ∈ IGNORE_USERS)
    then ret tt
    else
      let mxid := normalize_user sender in
      do row <- get_user_row mxid;
      let xp_now := xp_of_row row in
      let last_msg := last_msg_of_row row in
      if Qltb (now - or_zero last_msg) COOLDOWN then ret tt
      else
        let new_xp := xp_now + XP_PER_MESSAGE in
        upsert_user mxid new_xp (Some now);;
        let old_level := calc_level xp_now in
        let new_level := calc_level new_xp in
        if bool_decide (new_level > old_level) then
          let badge := get_badge new_level in
          reply (level_up_text mxid new_level badge)
        else ret tt.

(** [XpBot.cmd_setxp] *)
Definition cmd_setxp (evt : MessageEvent) (user xp : string) : M unit :=
  if negb (is_admin_or_mod evt) then
    reply "❌ You are not allowed to use this command."
  else
    let target := normalize_user user in
    match int xp with
    | None => reply "❌ XP must be a number."
    | Some xp_val =>
        do row <- get_user_row target;
        let old_xp := xp_of_row row in
        let old_level := calc_level old_xp in
        let new_level := calc_level xp_val in
        let last_msg := last_msg_of_row row in
        upsert_user target xp_val (Some last_msg);;
        let badge := get_badge new_level in
        reply ("✅ XP set for " +:+ target +:+ ": " +:+ pretty xp_val
               +:+ " (Level " +:+ pretty new_level +:+ " " +:+ badge +:+ ")");;
        if bool_decide (new_level > old_level) then
          reply (level_up_text target new_level badge)
        else ret tt
    end.

(** [XpBot.cmd_leaderboard] *)
Definition cmd_leaderboard (evt : MessageEvent) : M unit :=
  if negb (is_admin_or_mod evt) then
    reply "❌ You are not allowed to use this command."
  else
    do rows <- _get_top order_by_xp_desc;
    if bool_decide (rows = []) then reply "📊 No data yet."
    else
      let msg_lines :=
        "🏆 **Leaderboard**" :: imap (λ i r, leaderboard_line (S i) r) rows in
      reply (String.concat NL msg_lines).

End Handlers.

(** ** Vocabulary of the statements *)

(** The milestone table of the specification's example. *)
Definition example_badges : gmap Z string :=
  <[1 := "Bronze"]> (<[5 := "Silver"]> (<[10 := "Gold"]> (<[20 := "Platinum"]> ∅))).

(** The replies among the effects of a run. *)
Definition replies (l : list Effect) : list string :=
  omap (λ e, match e with Reply t => Some t | _ => None end) l.

(** [f] on each element in turn, as when the events arrive one by one. *)
Fixpoint for_each {A} (f : A → M unit) (l : list A) : M unit :=
  match l with
  | [] => ret tt
  | a :: l' => f a;; for_each f l'
  end.

(** A message qualifies for an award when it has a body and its sender is
    neither the bot nor an ignored account. *)
Definition qualifies (client_mxid : string) (evt : MessageEvent) : Prop :=
  no_body evt = false ∧ sender evt ≠ client_mxid ∧ sender evt ∉ IGNORE_USERS.

(** [xp] and [last_msg] as the handlers read them from the table. *)
Definition stored_xp (d : gmap string Row) (mxid : string) : Z :=
  from_option row_xp 0 (d !! mxid).

Definition stored_last_msg (d : gmap string Row) (mxid : string) : Q :=
  from_option row_last_msg 0%Q (d !! mxid).

(** A message with a body, a table with one account, and tables with
    three accounts (two of equal xp) and with twelve. *)
Definition sample_event (s : string) : MessageEvent :=
  {| sender := s; content := Some {| body := Some "hello" |} |}.

Definition sample_db (xp : Z) : gmap string Row :=
  {[ "@user:j5.chat" := {| row_xp := xp; row_last_msg := 100%Q |} ]}.

Definition sample_table : gmap string Row :=
  <["@ann:j5.chat" := {| row_xp := 98; row_last_msg := 100%Q |}]>
  (<["@bob:j5.chat" := {| row_xp := 1098; row_last_msg := 40%Q |}]>
  (<["@cat:j5.chat" := {| row_xp := 98; row_last_msg := 7%Q |}]> ∅)).

Definition twelve_accounts : gmap string Row :=
  list_to_map
    ((λ n : Z, ("@u" +:+ pretty n +:+ ":j5.chat",
                {| row_xp := 10 * n; row_last_msg := 0%Q |}))
       <$> [1; 2; 3; 4; 5; 6; 7; 8; 9; 10; 11; 12]).

(** Two stores.  [key_order] sorts the rows as the map lists them.
    [insertion_order] lists the rows that were not written during the run
    first and the others in the order of their first write, and sorts them
    by xp keeping that order among equal xp; [checked] makes sure that what
    is returned answers the query. *)
Definition key_order : StoreOrder := λ _ d, merge_sort xp_ge (all_rows d).

Definition checked (candidate : StoreOrder) : StoreOrder :=
  λ h d,
    if decide (candidate h d ≡ₚ all_rows d
               ∧ StronglySorted xp_ge (candidate h d))
    then candidate h d
    else key_order h d.

Fixpoint insert_by_xp (r : string * Z) (l : list (string * Z))
  : list (string * Z) :=
  match l with
  | [] => [r]
  | r' :: l' => if decide (r.2 < r'.2) then r' :: insert_by_xp r l' else r :: l
  end.

Definition first_writes (h : list (string * Z * Q)) : list string :=
  reverse (remove_dups (reverse (h.*1.*1))).

Definition insertion_scan (h : list (string * Z * Q)) (d : gmap string Row)
  : list (string * Z) :=
  filter (λ r, r.1 ∉ first_writes h) (all_rows d)
  ++ omap (λ k, (λ r, (k, row_xp r)) <$> d !! k) (first_writes h).

Definition insertion_order : StoreOrder :=
  checked (λ h d, foldr insert_by_xp [] (insertion_scan h d)).

(** The effects of a list of commands run one after the other. *)
Definition in_turn (cs : list (M unit)) : M unit := for_each (λ c, c) cs.

(** Three accounts entered by the admin, in this order. *)
Definition three_entered : World :=
  (run (in_turn
          [cmd_setxp PyInt.int_decimal (sample_event "@admin:j5.chat")
             "ann" "98";
           cmd_setxp PyInt.int_decimal (sample_event "@admin:j5.chat")
             "bob" "1098";
           cmd_setxp PyInt.int_decimal (sample_event "@admin:j5.chat")
             "cat" "98"]) ∅).2.

(** What [cmd_leaderboard] sends for the rows it has got. *)
Definition leaderboard_reply (rows : list (string * Z)) : string :=
  if bool_decide (rows = []) then "📊 No data yet."
  else String.concat NL
         ("🏆 **Leaderboard**" :: imap (λ i r, leaderboard_line (S i) r) rows).

(** ** The read-only commands *)

(** [XpBot.cmd_level] *)
Definition cmd_level (evt : MessageEvent) : M unit :=
  let mxid := normalize_user (sender evt) in
  do row <- get_user_row mxid;
  let xp := xp_of_row row in
  let lvl := calc_level xp in
  let badge := get_badge lvl in
  reply ("⭐ " +:+ sender evt +:+ ": Level " +:+ pretty lvl +:+ " | XP: "
         +:+ pretty xp +:+ " " +:+ badge).

(** The text [cmd_profile] sends. *)
Definition profile_text (target : string) (xp : Z) : string :=
  let lvl := calc_level xp in
  let badge := get_badge lvl in
  "👤 " +:+ target +:+ ": Level " +:+ pretty lvl +:+ " | XP: " +:+ pretty xp
    +:+ " " +:+ badge.

(** [normalize_user(user) if user else normalize_user(evt.sender)]; the
    argument is optional. *)
Definition profile_target (evt : MessageEvent) (user : option string) : string :=
  match user with
  | Some u => if PyStr.is_empty u then normalize_user (sender evt)
              else normalize_user u
  | None => normalize_user (sender evt)
  end.

(** [XpBot.cmd_profile] *)
Definition cmd_profile (evt : MessageEvent) (user : option string) : M unit :=
  let target := profile_target evt user in
  do row <- get_user_row target;
  let xp := xp_of_row row in
  reply (profile_text target xp).

Definition help_admin : string :=
  "📘 **XP Commands (Admin)**" +:+ NL +:+
  "- `!level`" +:+ NL +:+
  "- `!leaderboard`" +:+ NL +:+
  "- `!profile [user]`" +:+ NL +:+
  "- `!setxp <user> <xp>`" +:+ NL +:+
  "- `!xp`" +:+ NL.

Definition help_user : string :=
  "📘 **XP Commands (User)**" +:+ NL +:+
  "- `!level`" +:+ NL +:+
  "- `!profile [user]`" +:+ NL +:+
  "- `!xp`" +:+ NL.

(** [XpBot.cmd_xp_help] *)
Definition cmd_xp_help (evt : MessageEvent) : M unit :=
  if is_admin_or_mod evt then reply help_admin else reply help_user.

(** The text with which [cmd_setxp] confirms the new value. *)
Definition setxp_text (target : string) (xp_val : Z) : string :=
  "✅ XP set for " +:+ target +:+ ": " +:+ pretty xp_val
    +:+ " (Level " +:+ pretty (calc_level xp_val) +:+ " "
    +:+ get_badge (calc_level xp_val) +:+ ")".

(** The times of the awards written to the table, in the order of the log. *)
Definition award_times (l : list Effect) : list Q :=
  omap (λ e, match e with DbUpsert _ _ t => Some t | _ => None end) l.

(** Each time is at least [COOLDOWN] after the one before, the first one at
    least [COOLDOWN] after [last]. *)
Fixpoint spaced (last : Q) (ts : list Q) : Prop :=
  match ts with
  | [] => True
  | t :: ts' => (COOLDOWN <= t - last)%Q ∧ spaced t ts'
  end.

(** No account has negative xp. *)
Definition xp_nonneg (d : gmap string Row) : Prop :=
  map_Forall (λ _ r, 0 ≤ row_xp r) d.

(** * Properties *)

(** ** Evaluation on small inputs *)

Example normalize_full : normalize_user "@a:b.c" = "@a:b.c".
Proof. reflexivity. Qed.
Example normalize_sigil : normalize_user "@a" = "@a:j5.chat".
Proof. reflexivity. Qed.
Example normalize_bare : normalize_user "a" = "@a:j5.chat".
Proof. reflexivity. Qed.
Example normalize_domain : normalize_user "a:b.c" = "a:b.c".
Proof. reflexivity. Qed.
Example normalize_spaces : normalize_user "  bob " = "@bob:j5.chat".
Proof. reflexivity. Qed.

Example get_badge_0 : get_badge 0 = "". Proof. reflexivity. Qed.
Example get_badge_7 : get_badge 7 = "🥈 Silver". Proof. reflexivity. Qed.

Example int_42 : PyInt.int_decimal " 42" = Some 42. Proof. reflexivity. Qed.
Example int_neg : PyInt.int_decimal "-1_000" = Some (-1000). Proof. reflexivity. Qed.
Example int_abc : PyInt.int_decimal "abc" = None. Proof. reflexivity. Qed.
Example int_empty : PyInt.int_decimal "" = None. Proof. reflexivity. Qed.
Example int_separator :
  PyInt.int_decimal (String "028"%char "42") = None
  ∧ PyInt.int_decimal (String "009"%char "42" +:+ NL) = Some 42.
Proof. split; reflexivity. Qed.

(** ** Stripping *)

Module PyStrFacts.
Import PyStr.

Lemma strip_tok_Some w s r : strip_tok w s = Some r ↔ s = w ++ r.
Proof.
  revert s. induction w as [|a w IH]; intros s; simpl.
  - split; congruence.
  - destruct s as [|b s]; [split; discriminate|].
    destruct (Ascii.eqb_spec a b) as [->|Hne].
    + rewrite IH. split; congruence.
    + split; [discriminate|]. intros [=]; congruence.
Qed.

Lemma drop_tok_Some toks s r :
  drop_tok toks s = Some r → ∃ w, w ∈ toks ∧ s = w ++ r.
Proof.
  induction toks as [|w toks IH]; simpl; [discriminate|].
  destruct (strip_tok w s) as [r'|] eqn:E.
  - intros [= ->]. exists w. split; [left|]. by apply strip_tok_Some.
  - intros H. destruct (IH H) as (w' & Hin & ->).
    exists w'. split; [by right|done].
Qed.

Lemma drop_tok_None toks s :
  drop_tok toks s = None ↔ ∀ w, w ∈ toks → ¬ w `prefix_of` s.
Proof.
  induction toks as [|w toks IH]; simpl.
  - split; [|done]. intros _ w Hw. inversion Hw.
  - destruct (strip_tok w s) as [r|] eqn:E.
    + split; [discriminate|]. intros H. exfalso.
      apply (H w); [left|]. exists r. by apply strip_tok_Some.
    + rewrite IH. split.
      * intros H w' Hw'. apply elem_of_cons in Hw' as [->|Hw']; [|by apply H].
        intros [r Hr]. apply strip_tok_Some in Hr. congruence.
      * intros H w' Hw'. apply H. by right.
Qed.

Lemma drop_tok_None_prefix toks y s :
  y `prefix_of` s → drop_tok toks s = None → drop_tok toks y = None.
Proof.
  rewrite !drop_tok_None. intros Hy H w Hw Hp.
  apply (H w Hw). by etrans.
Qed.

Lemma lstrip_fuel_suffix toks n s : lstrip_fuel toks n s `suffix_of` s.
Proof.
  revert s. induction n as [|n IH]; intros s; simpl; [done|].
  destruct (drop_tok toks s) as [r|] eqn:E; [|done].
  apply drop_tok_Some in E as (w & _ & ->).
  etrans; [apply IH|]. by apply suffix_app_r.
Qed.

Lemma lstrip_fuel_clean toks n s :
  Forall (λ w, w ≠ []) toks → (length s ≤ n)%nat →
  drop_tok toks (lstrip_fuel toks n s) = None.
Proof.
  intros Hne. revert s. induction n as [|n IH]; intros s Hlen; simpl.
  - destruct s; [|simpl in Hlen; lia].
    apply drop_tok_None. intros w Hw [r Hr].
    symmetry in Hr. apply app_eq_nil in Hr as [-> _].
    rewrite Forall_forall in Hne. by apply (Hne [] Hw).
  - destruct (drop_tok toks s) as [r|] eqn:E; [|done].
    apply IH. apply drop_tok_Some in E as (w & Hw & ->).
    rewrite Forall_forall in Hne. specialize (Hne w Hw).
    rewrite length_app in Hlen. destruct w; [done|]. simpl in Hlen. lia.
Qed.

Lemma lstrip_fuel_fixed toks n s :
  drop_tok toks s = None → lstrip_fuel toks n s = s.
Proof. intros H. destruct n; simpl; [done|]. by rewrite H. Qed.

Lemma WHITESPACE_nonempty : Forall (λ w, w ≠ []) WHITESPACE.
Proof. repeat constructor; discriminate. Qed.

Lemma WHITESPACE_rev_nonempty : Forall (λ w, w ≠ []) (map reverse WHITESPACE).
Proof. repeat constructor; discriminate. Qed.

Lemma lstrip_l_clean s : drop_tok WHITESPACE (lstrip_l s) = None.
Proof. apply lstrip_fuel_clean; [apply WHITESPACE_nonempty|done]. Qed.

Lemma rstrip_l_prefix s : rstrip_l s `prefix_of` s.
Proof.
  apply prefix_suffix_reverse. unfold rstrip_l.
  rewrite reverse_involutive. apply lstrip_fuel_suffix.
Qed.

Lemma rstrip_l_clean s :
  drop_tok (map reverse WHITESPACE) (reverse (rstrip_l s)) = None.
Proof.
  unfold rstrip_l. rewrite reverse_involutive.
  apply lstrip_fuel_clean; [apply WHITESPACE_rev_nonempty|].
  by rewrite length_reverse.
Qed.

(** A string with no whitespace at either end is left alone. *)
Lemma strip_l_fixed s :
  drop_tok WHITESPACE s = None →
  drop_tok (map reverse WHITESPACE) (reverse s) = None →
  strip_l s = s.
Proof.
  intros Hl Hr. unfold strip_l, lstrip_l, rstrip_l.
  rewrite (lstrip_fuel_fixed _ _ _ Hl), (lstrip_fuel_fixed _ _ _ Hr).
  apply reverse_involutive.
Qed.

Lemma strip_l_idem s : strip_l (strip_l s) = strip_l s.
Proof.
  apply strip_l_fixed.
  - apply (drop_tok_None_prefix _ _ (lstrip_l s)).
    + apply rstrip_l_prefix.
    + apply lstrip_l_clean.
  - apply rstrip_l_clean.
Qed.

Lemma strip_idem s : strip (strip s) = strip s.
Proof.
  unfold strip.
  by rewrite list_ascii_of_string_of_list_ascii, strip_l_idem.
Qed.

Lemma list_ascii_of_string_app s t :
  list_ascii_of_string (s +:+ t)
  = list_ascii_of_string s ++ list_ascii_of_string t.
Proof. induction s as [|a s IH]; simpl; [done|]. by rewrite IH. Qed.

Lemma contains_app c s t :
  contains c (s +:+ t) = contains c s || contains c t.
Proof.
  induction s as [|a s IH]; simpl; [done|].
  rewrite IH. by rewrite orb_assoc.
Qed.

(** The keys built by [normalize_user] have no whitespace at either end. *)
Lemma strip_qualified x : strip ("@" +:+ x +:+ ":j5.chat") = "@" +:+ x +:+ ":j5.chat".
Proof.
  unfold strip. rewrite strip_l_fixed.
  - apply string_of_list_ascii_of_string.
  - reflexivity.
  - rewrite !list_ascii_of_string_app.
    change (list_ascii_of_string ":j5.chat")
      with (list_ascii_of_string ":j5.cha" ++ ["t"%char]).
    rewrite !app_assoc, reverse_snoc. reflexivity.
Qed.

End PyStrFacts.

(** ** The identity normalizer *)

(** A stripped string with a domain separator is a fixed point. *)
Lemma normalize_user_fixed u :
  PyStr.strip u = u → PyStr.contains ":" u = true → normalize_user u = u.
Proof.
  intros Hs Hc. unfold normalize_user.
  destruct u as [|a u']; [discriminate|]. cbn [PyStr.is_empty].
  rewrite Hs, Hc, andb_true_r. cbn [negb].
  by destruct (PyStr.startswith _ _).
Qed.

Lemma normalize_user_qualified x :
  normalize_user ("@" +:+ x +:+ ":j5.chat") = "@" +:+ x +:+ ":j5.chat".
Proof.
  apply normalize_user_fixed.
  - apply PyStrFacts.strip_qualified.
  - rewrite !PyStrFacts.contains_app. cbn. by rewrite orb_true_r.
Qed.

(** C10: [normalize_user] is idempotent: normalising a normalised key
    changes nothing, for every input string. *)
Theorem normalize_user_idempotent (s : string) :
  normalize_user (normalize_user s) = normalize_user s.
Proof.
  unfold normalize_user at 2 3.
  destruct (PyStr.is_empty s); [reflexivity|].
  set (u := PyStr.strip s).
  assert (Hu : PyStr.strip u = u) by apply PyStrFacts.strip_idem.
  destruct (PyStr.startswith u "@") eqn:Hat; cbn [andb].
  - destruct (PyStr.contains ":" u) eqn:Hc.
    + by apply normalize_user_fixed.
    + apply normalize_user_qualified.
  - destruct (PyStr.contains ":" u) eqn:Hc; cbn [negb].
    + by apply normalize_user_fixed.
    + apply normalize_user_qualified.
Qed.

(** C5: on a blank (all-whitespace, non-empty) input the emptiness test of
    [normalize_user] has already been passed when the text is stripped, so
    the result is the key with an empty local part, not the empty string. *)
Theorem normalize_user_blank :
  normalize_user " " = "@:j5.chat"
  ∧ normalize_user "   " = "@:j5.chat"
  ∧ normalize_user (String "009"%char NL) = "@:j5.chat"
  ∧ normalize_user "" = "".
Proof. repeat split; reflexivity. Qed.

(** On input without surrounding whitespace the four shapes of the contract
    are handled as documented. *)
Lemma normalize_user_shapes (u : string) :
  PyStr.strip u = u → u ≠ "" →
  normalize_user u =
    match PyStr.startswith u "@", PyStr.contains ":" u with
    | true, true => u
    | true, false => u +:+ ":j5.chat"
    | false, false => "@" +:+ u +:+ ":j5.chat"
    | false, true => u
    end.
Proof.
  intros Hs Hne. unfold normalize_user.
  destruct u as [|a u']; [done|]. cbn [PyStr.is_empty]. rewrite Hs.
  destruct (PyStr.startswith _ _) eqn:Hat, (PyStr.contains _ _); try done.
  unfold PyStr.startswith in Hat. cbn -[ascii_dec] in Hat.
  by destruct (ascii_dec "@" a) as [<-|].
Qed.

(** ** Levels and badges *)

#[local] Instance milestone_ge_trans : Transitive milestone_ge.
Proof. intros p q r. unfold milestone_ge. lia. Qed.

#[local] Instance milestone_ge_total : Total milestone_ge.
Proof. intros p q. unfold milestone_ge. lia. Qed.

Lemma first_badge_spec (l : list (Z * string)) (level : Z) :
  StronglySorted milestone_ge l →
  (∃ m b, (m, b) ∈ l ∧ m ≤ level
          ∧ (∀ m' b', (m', b') ∈ l → m' ≤ level → m' ≤ m)
          ∧ first_badge l level = b)
  ∨ ((∀ m b, (m, b) ∈ l → level < m) ∧ first_badge l level = "").
Proof.
  induction 1 as [|[m0 b0] l Hl IH Hall]; simpl.
  - right. split; [|done]. intros m b Hin. inversion Hin.
  - case_bool_decide as Hle.
    + left. exists m0, b0. split_and!; [left|done| |done].
      intros m' b' Hin _. apply elem_of_cons in Hin as [[= -> ->]|Hin]; [lia|].
      rewrite Forall_forall in Hall. apply (Hall _ Hin).
    + destruct IH as [(m & b & Hin & Hm & Hmax & Hb)|[Hnone Hb]].
      * left. exists m, b. split_and!; [by right|done| |done].
        intros m' b' Hin' Hle'.
        apply elem_of_cons in Hin' as [[= -> ->]|Hin']; [lia|by eapply Hmax].
      * right. split; [|done]. intros m b Hin.
        apply elem_of_cons in Hin as [[= -> ->]|Hin]; [lia|by eapply Hnone].
Qed.

Lemma elem_of_sorted_items_desc (d : gmap Z string) m b :
  (m, b) ∈ sorted_items_desc d ↔ d !! m = Some b.
Proof.
  unfold sorted_items_desc. rewrite merge_sort_Permutation.
  apply elem_of_map_to_list.
Qed.

(** C6: for every milestone table and every level, [get_badge] returns the
    label of the highest milestone not above the level, and the empty label
    when every milestone is above it; on the example table and on the
    plugin's own table levels 0, 4, 20 and 100 give no badge, Bronze,
    Platinum and Platinum. *)
Theorem get_badge_highest_milestone :
  (∀ (badges : gmap Z string) (level : Z),
      (∃ m b, badges !! m = Some b ∧ m ≤ level
              ∧ (∀ m', is_Some (badges !! m') → m' ≤ level → m' ≤ m)
              ∧ get_badge_in badges level = b)
      ∨ ((∀ m, is_Some (badges !! m) → level < m)
         ∧ get_badge_in badges level = ""))
  ∧ (get_badge_in example_badges 0 = ""
     ∧ get_badge_in example_badges 4 = "Bronze"
     ∧ get_badge_in example_badges 20 = "Platinum"
     ∧ get_badge_in example_badges 100 = "Platinum")
  ∧ (get_badge 0 = ""
     ∧ get_badge 4 = "🥉 Bronze"
     ∧ get_badge 20 = "🏆 Platinum"
     ∧ get_badge 100 = "🏆 Platinum").
Proof.
  split; [|by vm_compute].
  intros badges level. unfold get_badge_in.
  destruct (first_badge_spec (sorted_items_desc badges) level)
    as [(m & b & Hin & Hm & Hmax & Hb)|[Hnone Hb]].
  - apply StronglySorted_merge_sort; apply _.
  - left. exists m, b. split_and!; [|done| |done].
    + by apply elem_of_sorted_items_desc.
    + intros m' [b' Hb'] Hle. apply (Hmax m' b'); [|done].
      by apply elem_of_sorted_items_desc.
  - right. split; [|done]. intros m [b Hm].
    apply (Hnone m b). by apply elem_of_sorted_items_desc.
Qed.

Lemma calc_level_step (xp : Z) :
  calc_level (xp + XP_PER_MESSAGE) ≤ calc_level xp + 1.
Proof.
  unfold calc_level, XP_PER_MESSAGE, XP_PER_LEVEL.
  replace (xp `div` 100 + 1) with ((xp + 1 * 100) `div` 100)
    by (rewrite Z.div_add; lia).
  apply Z.div_le_mono; lia.
Qed.

(** ** Clock comparisons *)

Lemma Qltb_lt (a b : Q) : Qltb a b = true ↔ (a < b)%Q.
Proof.
  unfold Qltb. rewrite negb_true_iff, <- not_true_iff_false, Qle_bool_iff.
  split; [apply Qnot_le_lt|apply Qlt_not_le].
Qed.

Lemma Qltb_ge (a b : Q) : Qltb a b = false ↔ (b <= a)%Q.
Proof.
  unfold Qltb. rewrite negb_false_iff. apply Qle_bool_iff.
Qed.

Lemma or_zero_eq (x : Q) : (or_zero x == x)%Q.
Proof.
  unfold or_zero. destruct (Qeq_bool x 0) eqn:E; [|reflexivity].
  apply Qeq_bool_iff in E. by symmetry.
Qed.

Lemma cooling_lt (now last : Q) :
  Qltb (now - or_zero last) COOLDOWN = true ↔ (now - last < COOLDOWN)%Q.
Proof. rewrite Qltb_lt, or_zero_eq. reflexivity. Qed.

Lemma cooling_ge (now last : Q) :
  Qltb (now - or_zero last) COOLDOWN = false ↔ (COOLDOWN <= now - last)%Q.
Proof. rewrite Qltb_ge, or_zero_eq. reflexivity. Qed.

(** ** The message handler *)

Section OnMessage.
Variable client_mxid : string.

Lemma on_message_skipped now evt w :
  ¬ qualifies client_mxid evt → on_message client_mxid now evt w = (tt, w).
Proof.
  unfold qualifies, on_message. intros Hq.
  destruct (no_body evt); [done|].
  repeat case_bool_decide; try done. exfalso. by apply Hq.
Qed.

Lemma on_message_cooling now evt w :
  qualifies client_mxid evt →
  let mxid := normalize_user (sender evt) in
  (now - stored_last_msg (db w) mxid < COOLDOWN)%Q →
  on_message client_mxid now evt w
  = (tt, {| db := db w; log := log w ++ [DbSelect mxid] |}).
Proof.
  intros (Hb & Hs & Hi) mxid Hlt. unfold on_message. rewrite Hb.
  rewrite !bool_decide_eq_false_2 by done. cbn [orb].
  unfold bind, get_user_row. fold mxid.
  apply cooling_lt in Hlt. unfold stored_last_msg in Hlt.
  destruct (db w !! mxid) as [r|]; cbn in *; by rewrite Hlt.
Qed.

Lemma on_message_accepted now evt w :
  qualifies client_mxid evt →
  let mxid := normalize_user (sender evt) in
  let xp := stored_xp (db w) mxid in
  let new_xp := xp + XP_PER_MESSAGE in
  (COOLDOWN <= now - stored_last_msg (db w) mxid)%Q →
  on_message client_mxid now evt w
  = (tt, {| db := <[mxid := {| row_xp := new_xp; row_last_msg := now |}]> (db w);
            log := log w ++ DbSelect mxid :: DbUpsert mxid new_xp now ::
                   if bool_decide (calc_level new_xp > calc_level xp)
                   then [Reply (level_up_text mxid (calc_level new_xp)
                                  (get_badge (calc_level new_xp)))]
                   else [] |}).
Proof.
  intros (Hb & Hs & Hi) mxid xp new_xp Hge. unfold on_message. rewrite Hb.
  rewrite !bool_decide_eq_false_2 by done. cbn [orb].
  unfold bind, get_user_row, upsert_user, reply, emit, ret. fold mxid.
  apply cooling_ge in Hge. unfold stored_last_msg in Hge.
  subst xp new_xp. unfold stored_xp.
  destruct (db w !! mxid) as [r|]; cbn in *; rewrite Hge;
    case_bool_decide; cbn; by rewrite <- ?app_assoc.
Qed.

Lemma qualifies_dec evt : qualifies client_mxid evt ∨ ¬ qualifies client_mxid evt.
Proof.
  unfold qualifies. destruct (no_body evt); [right; by intros (? & ? & ?)|].
  destruct (decide (sender evt = client_mxid)); [right; by intros (? & ? & ?)|].
  destruct (decide (sender evt ∈ IGNORE_USERS)); [right; by intros (? & ? & ?)|].
  by left.
Qed.

(** An attempt inside the window reads the row and does nothing else. *)
Lemma on_message_rejected now evt w :
  let mxid := normalize_user (sender evt) in
  (now - stored_last_msg (db w) mxid < COOLDOWN)%Q →
  ∃ sel, on_message client_mxid now evt w
         = (tt, {| db := db w; log := log w ++ sel |})
         ∧ Forall (λ e, e = DbSelect mxid) sel.
Proof.
  intros mxid Hlt. destruct (qualifies_dec evt) as [Hq|Hq].
  - exists [DbSelect mxid]. split; [by apply on_message_cooling|].
    by repeat constructor.
  - exists []. rewrite app_nil_r. split; [|constructor].
    rewrite on_message_skipped by done. by destruct w.
Qed.

Lemma for_each_rejected nows evt w :
  let mxid := normalize_user (sender evt) in
  Forall (λ now, (now - stored_last_msg (db w) mxid < COOLDOWN)%Q) nows →
  ∃ sel, for_each (λ now, on_message client_mxid now evt) nows w
         = (tt, {| db := db w; log := log w ++ sel |})
         ∧ Forall (λ e, e = DbSelect mxid) sel.
Proof.
  intros mxid. revert w. induction nows as [|now nows IH]; intros w Hall.
  - exists []. rewrite app_nil_r. split; [by destruct w|constructor].
  - apply Forall_cons in Hall as [Hnow Hall].
    destruct (on_message_rejected now evt w Hnow) as (sel1 & E1 & H1).
    cbn [for_each]. unfold bind at 1. rewrite E1.
    destruct (IH {| db := db w; log := log w ++ sel1 |} Hall)
      as (sel2 & E2 & H2).
    exists (sel1 ++ sel2). rewrite E2. cbn. rewrite app_assoc.
    split; [done|]. by apply Forall_app.
Qed.

End OnMessage.

Lemma stored_row d mxid xp last :
  d !! mxid = Some {| row_xp := xp; row_last_msg := last |} →
  stored_xp d mxid = xp ∧ stored_last_msg d mxid = last.
Proof. unfold stored_xp, stored_last_msg. by intros ->. Qed.

(** C1: for an account with a stored row [(xp, last)], an attempt at [now]
    with [now - last < COOLDOWN] changes nothing in the table, writes
    nothing and sends no reply (it only reads the row), and so does any
    sequence of such attempts; a qualifying message with
    [COOLDOWN <= now - last] is accepted and stores [xp + XP_PER_MESSAGE]
    with [last_msg = now]. *)
Theorem cooldown_gating (client_mxid : string) (evt : MessageEvent)
    (d : gmap string Row) (xp : Z) (last : Q) :
  let mxid := normalize_user (sender evt) in
  d !! mxid = Some {| row_xp := xp; row_last_msg := last |} →
  (∀ now, (now - last < COOLDOWN)%Q →
     let w' := (run (on_message client_mxid now evt) d).2 in
     db w' = d ∧ Forall (λ e, e = DbSelect mxid) (log w'))
  ∧ (∀ nows, Forall (λ now, (now - last < COOLDOWN)%Q) nows →
     let w' := (run (for_each (λ now, on_message client_mxid now evt) nows) d).2 in
     db w' = d ∧ Forall (λ e, e = DbSelect mxid) (log w'))
  ∧ (∀ now, qualifies client_mxid evt → (COOLDOWN <= now - last)%Q →
     let w' := (run (on_message client_mxid now evt) d).2 in
     db w' = <[mxid := {| row_xp := xp + XP_PER_MESSAGE; row_last_msg := now |}]> d
     ∧ take 2 (log w') = [DbSelect mxid; DbUpsert mxid (xp + XP_PER_MESSAGE) now]).
Proof.
  intros mxid Hrow. destruct (stored_row _ _ _ _ Hrow) as [Hxp Hlast].
  subst xp last. clear Hrow. unfold run. split_and!.
  - intros now Hlt.
    by destruct (on_message_rejected client_mxid now evt {| db := d; log := [] |})
      as (sel & -> & Hsel).
  - intros nows Hall.
    by destruct (for_each_rejected client_mxid nows evt {| db := d; log := [] |})
      as (sel & -> & Hsel).
  - intros now Hq Hge. by rewrite on_message_accepted.
Qed.

Lemma cooldown_gating_witness :
  db (run (on_message "@xpbot:j5.chat" 104%Q (sample_event "@user:j5.chat"))
        (sample_db 10)).2 = sample_db 10
  ∧ db (run (on_message "@xpbot:j5.chat" 105%Q (sample_event "@user:j5.chat"))
          (sample_db 10)).2
    = <["@user:j5.chat" := {| row_xp := 15; row_last_msg := 105%Q |}]> (sample_db 10).
Proof.
  destruct (cooldown_gating "@xpbot:j5.chat" (sample_event "@user:j5.chat")
              (sample_db 10) 10 100%Q eq_refl) as (Hrej & _ & Hacc).
  split.
  - apply (Hrej 104%Q). reflexivity.
  - apply (Hacc 105%Q).
    + split_and!; [reflexivity|discriminate|by vm_compute].
    + discriminate.
Defined.



(** C9: a message-driven award on a stored [xp ≥ 0] raises the level by at
    most one, and every level-up reply of [on_message] announces exactly
    the level after the old one. *)
Theorem award_level_step (client_mxid : string) (now : Q) (evt : MessageEvent)
    (d : gmap string Row) (xp : Z) (last : Q) :
  let mxid := normalize_user (sender evt) in
  d !! mxid = Some {| row_xp := xp; row_last_msg := last |} →
  0 ≤ xp →
  calc_level (xp + XP_PER_MESSAGE) ≤ calc_level xp + 1
  ∧ ∀ text, Reply text ∈ log (run (on_message client_mxid now evt) d).2 →
      text = level_up_text mxid (calc_level xp + 1) (get_badge (calc_level xp + 1)).
Proof.
  intros mxid Hrow _. pose proof (calc_level_step xp) as Hstep.
  split; [done|]. intros text. unfold run.
  destruct (stored_row _ _ _ _ Hrow) as [Hxp Hlast]. subst xp last. clear Hrow.
  destruct (qualifies_dec client_mxid evt) as [Hq|Hq].
  - destruct (Qlt_le_dec (now - stored_last_msg d mxid) COOLDOWN) as [Hlt|Hge].
    + rewrite on_message_cooling by done. cbn.
      intros Hin. apply list_elem_of_singleton in Hin. discriminate.
    + rewrite on_message_accepted by done. cbn.
      fold mxid. case_bool_decide as Hup.
      * intros Hin. repeat (apply elem_of_cons in Hin as [Hin|Hin]; try done).
        -- injection Hin as ->.
           by replace (calc_level (stored_xp d mxid + XP_PER_MESSAGE))
             with (calc_level (stored_xp d mxid) + 1) by lia.
        -- inversion Hin.
      * intros Hin. repeat (apply elem_of_cons in Hin as [Hin|Hin]; try done).
        inversion Hin.
  - rewrite on_message_skipped by done. cbn. intros Hin. inversion Hin.
Qed.

Lemma award_level_step_witness :
  calc_level (98 + XP_PER_MESSAGE) ≤ calc_level 98 + 1
  ∧ ∀ text,
      Reply text ∈ log (run (on_message "@xpbot:j5.chat" 105%Q
                               (sample_event "@user:j5.chat")) (sample_db 98)).2 →
      text = level_up_text "@user:j5.chat" (calc_level 98 + 1)
               (get_badge (calc_level 98 + 1)).
Proof.
  apply (award_level_step "@xpbot:j5.chat" 105%Q (sample_event "@user:j5.chat")
           (sample_db 98) 98 100%Q); [reflexivity|lia].
Defined.

(** ** The admin commands *)

Lemma is_admin_or_mod_true evt : is_admin_or_mod evt = true ↔ sender evt ∈ ADMINS.
Proof. unfold is_admin_or_mod. apply bool_decide_eq_true. Qed.

Lemma is_admin_or_mod_false evt : is_admin_or_mod evt = false ↔ sender evt ∉ ADMINS.
Proof. unfold is_admin_or_mod. apply bool_decide_eq_false. Qed.

(** C3: [cmd_setxp] by a caller outside [ADMINS] only sends the denial, and
    by an admin with an [xp] text that [int] rejects only sends the
    bad-number reply: in both cases the table is unchanged and the log gains
    no read and no write. *)
Theorem setxp_validation (int : string → option Z) (evt : MessageEvent)
    (user xp : string) (w : World) :
  (sender evt ∉ ADMINS →
   (cmd_setxp int evt user xp w).2
   = {| db := db w;
        log := log w ++ [Reply "❌ You are not allowed to use this command."] |})
  ∧ (sender evt ∈ ADMINS → int xp = None →
     (cmd_setxp int evt user xp w).2
     = {| db := db w; log := log w ++ [Reply "❌ XP must be a number."] |}).
Proof.
  unfold cmd_setxp. split.
  - intros Hna. apply is_admin_or_mod_false in Hna. by rewrite Hna.
  - intros Ha Hint. apply is_admin_or_mod_true in Ha. by rewrite Ha, Hint.
Qed.

Lemma setxp_validation_witness :
  (run (cmd_setxp PyInt.int_decimal (sample_event "@user:j5.chat") "user" "50")
     (sample_db 10)).2
  = {| db := sample_db 10;
       log := [Reply "❌ You are not allowed to use this command."] |}
  ∧ (run (cmd_setxp PyInt.int_decimal (sample_event "@admin:j5.chat") "user" "abc")
       (sample_db 10)).2
    = {| db := sample_db 10; log := [Reply "❌ XP must be a number."] |}.
Proof.
  split.
  - apply (setxp_validation PyInt.int_decimal (sample_event "@user:j5.chat")
             "user" "50" {| db := sample_db 10; log := [] |}).
    by vm_compute.
  - apply (setxp_validation PyInt.int_decimal (sample_event "@admin:j5.chat")
             "user" "abc" {| db := sample_db 10; log := [] |}).
    + by vm_compute.
    + reflexivity.
Defined.

(** C4: [cmd_setxp] by an admin with an [xp] text that [int] accepts stores
    the given value whatever the stored [last_msg] is (no clock is read and
    no cooldown test is made) and writes back the [last_msg] it has read, 0
    for an account without a row; [upsert_user] stores the [last_msg] it is
    given and resets it to 0 when it is given none. *)
Theorem setxp_keeps_last_msg (int : string → option Z) (evt : MessageEvent)
    (user xp : string) (xp_val : Z) (d : gmap string Row) :
  sender evt ∈ ADMINS → int xp = Some xp_val →
  let target := normalize_user user in
  let last := stored_last_msg d target in
  let w' := (run (cmd_setxp int evt user xp) d).2 in
  (db w' = <[target := {| row_xp := xp_val; row_last_msg := last |}]> d
   ∧ take 2 (log w') = [DbSelect target; DbUpsert target xp_val last])
  ∧ (∀ mxid x t w,
       db (upsert_user mxid x (Some t) w).2
       = <[mxid := {| row_xp := x; row_last_msg := t |}]> (db w))
  ∧ (∀ mxid x w,
       db (upsert_user mxid x None w).2
       = <[mxid := {| row_xp := x; row_last_msg := 0%Q |}]> (db w)).
Proof.
  intros Ha Hint target last. apply is_admin_or_mod_true in Ha.
  split; [|done]. unfold run, cmd_setxp. rewrite Ha, Hint. cbn [negb].
  fold target. unfold bind, get_user_row, upsert_user, reply, emit. cbn.
  subst last. unfold stored_last_msg.
  by destruct (d !! target); cbn; case_bool_decide.
Qed.

Lemma setxp_keeps_last_msg_witness :
  db (run (cmd_setxp PyInt.int_decimal (sample_event "@admin:j5.chat") "user" "250")
        (sample_db 10)).2
  = <["@user:j5.chat" := {| row_xp := 250; row_last_msg := 100%Q |}]> (sample_db 10).
Proof.
  apply (setxp_keeps_last_msg PyInt.int_decimal (sample_event "@admin:j5.chat")
           "user" "250" 250 (sample_db 10)).
  - by vm_compute.
  - reflexivity.
Defined.

(** C8: [cmd_leaderboard] by a caller outside [ADMINS] only sends the
    denial: the table is not queried.  For an admin the query is run. *)
Theorem leaderboard_admin_gate (q : StoreOrder) (evt : MessageEvent)
    (w : World) :
  (sender evt ∉ ADMINS →
   (cmd_leaderboard q evt w).2
   = {| db := db w;
        log := log w ++ [Reply "❌ You are not allowed to use this command."] |})
  ∧ (sender evt ∈ ADMINS →
     ∃ text, (cmd_leaderboard q evt w).2
             = {| db := db w; log := log w ++ [DbSelectTop; Reply text] |}).
Proof.
  unfold cmd_leaderboard. split.
  - intros Hna. apply is_admin_or_mod_false in Hna. by rewrite Hna.
  - intros Ha. apply is_admin_or_mod_true in Ha. rewrite Ha. cbn [negb].
    unfold bind, _get_top, reply, emit.
    case_bool_decide; eexists; cbn; by rewrite <- app_assoc.
Qed.

Lemma leaderboard_admin_gate_witness :
  (run (cmd_leaderboard insertion_order (sample_event "@user:j5.chat"))
     (sample_db 10)).2
  = {| db := sample_db 10;
       log := [Reply "❌ You are not allowed to use this command."] |}.
Proof.
  apply (leaderboard_admin_gate insertion_order (sample_event "@user:j5.chat")
           {| db := sample_db 10; log := [] |}).
  by vm_compute.
Defined.

(** ** The leaderboard query *)

#[local] Instance xp_ge_trans : Transitive xp_ge.
Proof. intros p q r. unfold xp_ge. lia. Qed.

#[local] Instance xp_ge_total : Total xp_ge.
Proof. intros p q. unfold xp_ge. lia. Qed.

Lemma elem_of_all_rows d k x :
  (k, x) ∈ all_rows d ↔ ∃ r, d !! k = Some r ∧ row_xp r = x.
Proof.
  unfold all_rows. rewrite list_elem_of_fmap. split.
  - intros ([k' r] & [= -> ->] & Hin). apply elem_of_map_to_list in Hin. eauto.
  - intros (r & Hr & <-). exists (k, r). split; [done|].
    by apply elem_of_map_to_list.
Qed.

Lemma all_rows_keys d : (all_rows d).*1 = (map_to_list d).*1.
Proof.
  unfold all_rows. rewrite <- list_fmap_compose.
  apply list_fmap_ext. by intros _ [k r] _.
Qed.

Lemma length_all_rows d : length (all_rows d) = size d.
Proof. unfold all_rows. by rewrite length_fmap, length_map_to_list. Qed.

Lemma key_order_answers : answers_order_by key_order.
Proof.
  intros h d. unfold key_order. split.
  - apply merge_sort_Permutation.
  - apply StronglySorted_merge_sort; apply _.
Qed.

Lemma checked_answers (candidate : StoreOrder) :
  answers_order_by (checked candidate).
Proof.
  intros h d. unfold checked. case_decide; [done|apply key_order_answers].
Qed.

Lemma insertion_order_answers : answers_order_by insertion_order.
Proof. apply checked_answers. Qed.

Lemma writes_app l1 l2 : writes (l1 ++ l2) = writes l1 ++ writes l2.
Proof. apply omap_app. Qed.

Section Leaderboard.
Variable q : StoreOrder.
Hypothesis Hq : answers_order_by q.

Lemma select_top_split w :
  q (writes (log w)) (db w)
  = select_top q w ++ drop 10 (q (writes (log w)) (db w)).
Proof. unfold select_top. by rewrite take_drop. Qed.

Lemma elem_of_select_top w r : r ∈ select_top q w → r ∈ all_rows (db w).
Proof.
  intros Hin. rewrite <- (proj1 (Hq (writes (log w)) (db w))), select_top_split.
  apply elem_of_app. by left.
Qed.

Lemma length_select_top w : length (select_top q w) = Nat.min 10 (size (db w)).
Proof.
  unfold select_top.
  by rewrite length_take, (proj1 (Hq _ _)), length_all_rows.
Qed.

Lemma select_top_nil w : select_top q w = [] ↔ db w = ∅.
Proof.
  rewrite <- map_size_empty_iff. pose proof (length_select_top w) as Hlen.
  split.
  - intros H. rewrite H in Hlen. by destruct (size (db w)).
  - intros H. rewrite H in Hlen. by destruct (select_top q w).
Qed.

Lemma cmd_leaderboard_run evt w :
  sender evt ∈ ADMINS →
  cmd_leaderboard q evt w
  = (tt, {| db := db w;
            log := log w ++ [DbSelectTop;
                             Reply (leaderboard_reply (select_top q w))] |}).
Proof.
  intros Ha. apply is_admin_or_mod_true in Ha.
  unfold cmd_leaderboard, leaderboard_reply. rewrite Ha. cbn [negb].
  unfold bind, _get_top, reply, emit.
  case_bool_decide; cbn [db log]; by rewrite <- app_assoc.
Qed.

(** The commands that only read. *)
Lemma read_keeps_store (c : M unit) (w : World) :
  (∃ evt user, c ∈ [cmd_level evt; cmd_profile evt user;
                    cmd_leaderboard q evt; cmd_xp_help evt]) →
  ∃ ev, c w = (tt, {| db := db w; log := log w ++ ev |}) ∧ writes ev = [].
Proof.
  intros (evt & user & Hc).
  repeat (apply elem_of_cons in Hc as [->|Hc]); [| | | |inversion Hc].
  - unfold cmd_level, bind, get_user_row, reply, emit. cbn.
    eexists [_; _]. by rewrite <- app_assoc.
  - unfold cmd_profile, bind, get_user_row, reply, emit. cbn.
    eexists [_; _]. by rewrite <- app_assoc.
  - unfold cmd_leaderboard. destruct (negb (is_admin_or_mod evt)).
    + by eexists [_].
    + unfold bind, _get_top, reply, emit. cbn.
      case_bool_decide; cbn [db log]; eexists [_; _]; by rewrite <- app_assoc.
  - unfold cmd_xp_help. destruct (is_admin_or_mod evt); by eexists [_].
Qed.

Lemma in_turn_reads (cs : list (M unit)) (w : World) :
  Forall (λ c, ∃ evt user, c ∈ [cmd_level evt; cmd_profile evt user;
                                cmd_leaderboard q evt; cmd_xp_help evt]) cs →
  ∃ ev, in_turn cs w = (tt, {| db := db w; log := log w ++ ev |})
        ∧ writes ev = [].
Proof.
  unfold in_turn. revert w. induction cs as [|c cs IH]; intros w Hall.
  - exists []. rewrite app_nil_r. by destruct w.
  - apply Forall_cons in Hall as [Hc Hall].
    destruct (read_keeps_store c w Hc) as (ev1 & E1 & H1).
    cbn [for_each]. unfold bind at 1. rewrite E1.
    destruct (IH {| db := db w; log := log w ++ ev1 |} Hall)
      as (ev2 & E2 & H2).
    exists (ev1 ++ ev2). rewrite E2. cbn. rewrite app_assoc.
    split; [done|]. by rewrite writes_app, H1, H2.
Qed.

Lemma leaderboard_reply_lines rows :
  rows ≠ [] →
  leaderboard_reply rows
  = "🏆 **Leaderboard**" +:+ NL
    +:+ String.concat NL (imap (λ i r, leaderboard_line (S i) r) rows).
Proof.
  intros Hne. unfold leaderboard_reply. rewrite bool_decide_eq_false_2 by done.
  by destruct rows.
Qed.

End Leaderboard.

(** C7: whatever order the store gives to rows of equal xp, the leaderboard
    query returns rows of the table, each account at most once, in
    non-increasing order of xp; it returns [min 10 n] rows of a table of
    [n] rows, hence all of them when there are at most 10; every row left
    out has no more xp than any row returned.  What an admin is sent is
    made of exactly these rows: "No data yet." when there is none, and
    otherwise the header followed by one line per row, in the order of the
    rows, the [i]-th giving the position, the account, its level, its xp
    and its badge.  The commands that only read write nothing, so that an
    admin who asks again after any number of them is sent the same rows in
    the same order. *)
Theorem leaderboard_top_rows (q : StoreOrder) (w : World) :
  answers_order_by q →
  let d := db w in
  let rows := select_top q w in
  StronglySorted xp_ge rows
  ∧ length rows = Nat.min 10 (size d)
  ∧ ((size d ≤ 10)%nat → length rows = size d ∧ rows ≡ₚ all_rows d)
  ∧ (∀ k x, (k, x) ∈ rows → ∃ r, d !! k = Some r ∧ row_xp r = x)
  ∧ NoDup rows.*1
  ∧ (∀ k r, d !! k = Some r → (k, row_xp r) ∉ rows →
     ∀ k' x', (k', x') ∈ rows → row_xp r ≤ x')
  ∧ (∀ evt, sender evt ∈ ADMINS →
     cmd_leaderboard q evt w
     = (tt, {| db := d;
               log := log w ++ [DbSelectTop; Reply (leaderboard_reply rows)] |}))
  ∧ (d = ∅ → leaderboard_reply rows = "📊 No data yet.")
  ∧ (d ≠ ∅ →
     ∃ lines,
       leaderboard_reply rows
       = "🏆 **Leaderboard**" +:+ NL +:+ String.concat NL lines
       ∧ length lines = length rows
       ∧ ∀ i k x, rows !! i = Some (k, x) →
           lines !! i
           = Some (pretty (Z.of_nat (S i)) +:+ ". " +:+ k +:+ " — Level "
                   +:+ pretty (calc_level x) +:+ " | XP " +:+ pretty x
                   +:+ " " +:+ get_badge (calc_level x)))
  ∧ (∀ cs evt,
       Forall (λ c, ∃ evt' user, c ∈ [cmd_level evt'; cmd_profile evt' user;
                                      cmd_leaderboard q evt'; cmd_xp_help evt'])
         cs →
       sender evt ∈ ADMINS →
       let w1 := (in_turn cs w).2 in
       db w1 = d
       ∧ select_top q w1 = rows
       ∧ cmd_leaderboard q evt w1
         = (tt, {| db := d;
                   log := log w1 ++ [DbSelectTop;
                                     Reply (leaderboard_reply rows)] |})).
Proof.
  intros Hq d rows.
  destruct (Hq (writes (log w)) d) as [Hperm Hsorted].
  pose proof (length_select_top q Hq w) as Hlen. fold d rows in Hlen.
  pose proof (select_top_split q w) as Hsplit. fold d rows in Hsplit.
  split_and!.
  - rewrite Hsplit in Hsorted. by apply StronglySorted_app_1_l in Hsorted.
  - done.
  - intros Hle. split; [lia|]. subst rows. unfold select_top. fold d.
    rewrite take_ge; [done|]. rewrite Hperm, length_all_rows. lia.
  - intros k x Hin. by apply elem_of_all_rows, (elem_of_select_top q Hq w).
  - assert (Hnd : NoDup (q (writes (log w)) d).*1).
    { rewrite Hperm, all_rows_keys. apply NoDup_fst_map_to_list. }
    rewrite Hsplit, fmap_app in Hnd. by apply NoDup_app in Hnd as (? & _ & _).
  - intros k r Hr Hout k' x' Hin.
    assert (Hall : (k, row_xp r) ∈ q (writes (log w)) d).
    { rewrite Hperm. apply elem_of_all_rows. eauto. }
    rewrite Hsplit in Hall, Hsorted.
    apply elem_of_app in Hall as [Hall|Hall]; [done|].
    apply (StronglySorted_app_1_elem_of _ _ _ _ _ Hsorted Hin Hall).
  - intros evt Ha. by apply cmd_leaderboard_run.
  - intros Hd. apply (select_top_nil q Hq w) in Hd. fold rows in Hd.
    by rewrite Hd.
  - intros Hd.
    assert (Hne : rows ≠ []).
    { intros Hnil. apply Hd. by apply (select_top_nil q Hq w). }
    exists (imap (λ i r, leaderboard_line (S i) r) rows). split_and!.
    + by apply leaderboard_reply_lines.
    + apply length_imap.
    + intros i k x Hi. rewrite list_lookup_imap, Hi. done.
  - intros cs evt Hcs Ha w1. subst w1.
    destruct (in_turn_reads q cs w Hcs) as (ev & -> & Hev). cbn [snd db log].
    assert (Hrows : select_top q {| db := db w; log := log w ++ ev |} = rows).
    { unfold rows, select_top. cbn [db log].
      by rewrite writes_app, Hev, app_nil_r. }
    split_and!; [done|done|].
    rewrite cmd_leaderboard_run by done. cbn [db log]. by rewrite Hrows.
Qed.

Lemma leaderboard_top_rows_witness :
  (length (select_top insertion_order three_entered) = size (db three_entered)
   ∧ select_top insertion_order three_entered ≡ₚ all_rows (db three_entered))
  ∧ cmd_leaderboard insertion_order (sample_event "@admin:j5.chat") three_entered
    = (tt, {| db := db three_entered;
              log := log three_entered
                     ++ [DbSelectTop;
                         Reply (leaderboard_reply
                                  (select_top insertion_order three_entered))] |}).
Proof.
  destruct (leaderboard_top_rows insertion_order three_entered
              insertion_order_answers)
    as (_ & _ & Hall & _ & _ & _ & Hreply & _).
  split.
  - apply Hall. vm_compute. lia.
  - apply Hreply. by vm_compute.
Defined.

Example leaderboard_entered :
  select_top insertion_order three_entered
  = [("@bob:j5.chat", 1098); ("@ann:j5.chat", 98); ("@cat:j5.chat", 98)]
  ∧ select_top key_order three_entered
    = [("@bob:j5.chat", 1098); ("@cat:j5.chat", 98); ("@ann:j5.chat", 98)]
  ∧ leaderboard_reply (select_top insertion_order three_entered)
    = "🏆 **Leaderboard**" +:+ NL
      +:+ "1. @bob:j5.chat — Level 10 | XP 1098 🥇 Gold" +:+ NL
      +:+ "2. @ann:j5.chat — Level 0 | XP 98 " +:+ NL
      +:+ "3. @cat:j5.chat — Level 0 | XP 98 ".
Proof. by vm_compute. Qed.

Example leaderboard_three :
  (select_top key_order {| db := sample_table; log := [] |}).*2 = [1098; 98; 98].
Proof. reflexivity. Qed.

Example leaderboard_limit :
  size twelve_accounts = 12%nat
  ∧ (select_top key_order {| db := twelve_accounts; log := [] |}).*2
    = [120; 110; 100; 90; 80; 70; 60; 50; 40; 30].
Proof. by vm_compute. Qed.

(** * Further properties of the plugin *)

(** ** Levels and badges, continued *)

Lemma calc_level_bounds (xp : Z) :
  100 * calc_level xp ≤ xp < 100 * (calc_level xp + 1).
Proof.
  unfold calc_level, XP_PER_LEVEL.
  pose proof (Z.div_mod xp 100 ltac:(lia)).
  pose proof (Z.mod_pos_bound xp 100 ltac:(lia)). lia.
Qed.

Lemma get_badge_unfold (level : Z) :
  get_badge level =
    if bool_decide (20 ≤ level) then "🏆 Platinum"
    else if bool_decide (10 ≤ level) then "🥇 Gold"
    else if bool_decide (5 ≤ level) then "🥈 Silver"
    else if bool_decide (1 ≤ level) then "🥉 Bronze"
    else "".
Proof. reflexivity. Qed.

(** X1: the level of [xp] is the integer [l] with
    [XP_PER_LEVEL * l ≤ xp < XP_PER_LEVEL * (l + 1)], also for negative
    [xp] (where the level is negative); levels never go down when xp
    grows. *)
Theorem calc_level_floor :
  (∀ xp l, calc_level xp = l
           ↔ XP_PER_LEVEL * l ≤ xp < XP_PER_LEVEL * (l + 1))
  ∧ (∀ xp xp', xp ≤ xp' → calc_level xp ≤ calc_level xp')
  ∧ (∀ xp, xp < 0 ↔ calc_level xp < 0).
Proof.
  split_and!.
  - intros xp l. pose proof (calc_level_bounds xp). unfold XP_PER_LEVEL.
    split; [intros <-; lia|]. lia.
  - intros xp xp' Hle. unfold calc_level, XP_PER_LEVEL.
    apply Z.div_le_mono; lia.
  - intros xp. pose proof (calc_level_bounds xp). lia.
Qed.

Lemma calc_level_floor_witness :
  calc_level 250 = 2 ∧ calc_level 199 ≤ calc_level 200 ∧ calc_level (-1) < 0.
Proof.
  destruct calc_level_floor as (Hfloor & Hmono & Hneg). split_and!.
  - apply (proj2 (Hfloor 250 2)). unfold XP_PER_LEVEL. lia.
  - apply (Hmono 199 200). lia.
  - apply (proj1 (Hneg (-1))). lia.
Defined.

(** X2: the badge of a level, for every integer level: none below level 1,
    Bronze on 1..4, Silver on 5..9, Gold on 10..19, Platinum from 20 on. *)
Theorem get_badge_tiers (level : Z) :
  (level < 1 → get_badge level = "")
  ∧ (1 ≤ level < 5 → get_badge level = "🥉 Bronze")
  ∧ (5 ≤ level < 10 → get_badge level = "🥈 Silver")
  ∧ (10 ≤ level < 20 → get_badge level = "🥇 Gold")
  ∧ (20 ≤ level → get_badge level = "🏆 Platinum").
Proof.
  rewrite get_badge_unfold.
  split_and!; intros H; repeat case_bool_decide; (done || lia).
Qed.

Lemma get_badge_tiers_witness :
  get_badge (-3) = "" ∧ get_badge 4 = "🥉 Bronze" ∧ get_badge 5 = "🥈 Silver"
  ∧ get_badge 19 = "🥇 Gold" ∧ get_badge 1000 = "🏆 Platinum".
Proof.
  split_and!.
  - apply (get_badge_tiers (-3)). lia.
  - apply (get_badge_tiers 4). lia.
  - apply (get_badge_tiers 5). lia.
  - apply (get_badge_tiers 19). lia.
  - apply (get_badge_tiers 1000). lia.
Defined.

(** X3: the badge shown for an account, as [get_badge (calc_level xp)]: an
    account has a badge exactly from 100 XP on, and the Platinum badge
    exactly from 2000 XP on. *)
Theorem badge_of_xp (xp : Z) :
  (get_badge (calc_level xp) = "" ↔ xp < 100)
  ∧ (get_badge (calc_level xp) = "🏆 Platinum" ↔ 2000 ≤ xp).
Proof.
  pose proof (calc_level_bounds xp). rewrite get_badge_unfold.
  split; repeat case_bool_decide; split; (done || lia).
Qed.

(** ** The identity normalizer, continued *)

Module PyStrMore.
Import PyStr PyStrFacts.

Lemma strip_l_fixed_inv s :
  strip_l s = s →
  drop_tok WHITESPACE s = None
  ∧ drop_tok (map reverse WHITESPACE) (reverse s) = None.
Proof.
  intros Hs. split.
  - assert (Hl : lstrip_l s = s).
    { pose proof (rstrip_l_prefix (lstrip_l s)) as Hp. fold (strip_l s) in Hp.
      rewrite Hs in Hp.
      pose proof (lstrip_fuel_suffix WHITESPACE (length s) s) as Hq.
      fold (lstrip_l s) in Hq.
      apply prefix_length in Hp. by apply suffix_length_eq. }
    rewrite <- Hl. apply lstrip_l_clean.
  - rewrite <- Hs. apply rstrip_l_clean.
Qed.

Lemma drop_tok_snoc toks l c :
  Forall (λ w, c ∉ w) toks →
  drop_tok toks l = None → drop_tok toks (l ++ [c]) = None.
Proof.
  rewrite !drop_tok_None, Forall_forall. intros Hc Hl w Hw [k Hk].
  destruct (decide (k = [])) as [->|Hne].
  - rewrite app_nil_r in Hk. apply (Hc w Hw). rewrite <- Hk.
    apply elem_of_app. right. left.
  - destruct (exists_last Hne) as (k' & c' & ->).
    rewrite app_assoc in Hk. apply app_inj_tail in Hk as [-> _].
    apply (Hl w Hw). by exists k'.
Qed.

Lemma sigil_not_whitespace :
  Forall (λ w, "@"%char ∉ w) (map reverse WHITESPACE).
Proof.
  repeat constructor;
    intros Hin; repeat (apply elem_of_cons in Hin as [Hin|Hin]; [done|]);
    inversion Hin.
Qed.

Lemma strip_sigil x : strip x = x → strip ("@" +:+ x) = "@" +:+ x.
Proof.
  intros Hx. unfold strip in *.
  apply (f_equal list_ascii_of_string) in Hx.
  rewrite list_ascii_of_string_of_list_ascii in Hx.
  apply strip_l_fixed_inv in Hx as [_ Hr].
  rewrite strip_l_fixed; [apply string_of_list_ascii_of_string|reflexivity|].
  change (list_ascii_of_string ("@" +:+ x))
    with ("@"%char :: list_ascii_of_string x).
  rewrite reverse_cons. apply drop_tok_snoc; [apply sigil_not_whitespace|done].
Qed.

Lemma startswith_sigil x : startswith ("@" +:+ x) "@" = true.
Proof.
  unfold startswith. cbn -[ascii_dec].
  destruct (ascii_dec "@" "@"); [by destruct x|done].
Qed.

Lemma strip_nonempty s : strip s ≠ "" → s ≠ "".
Proof. intros H ->. by apply H. Qed.

Lemma startswith_nonempty u p : startswith u (String p "") = true → u ≠ "".
Proof. by intros H ->. Qed.

Lemma contains_nonempty c u : contains c u = true → u ≠ "".
Proof. by intros H ->. Qed.

End PyStrMore.

Lemma is_empty_false s : s ≠ "" → PyStr.is_empty s = false.
Proof. by destruct s. Qed.

(** X4: [normalize_user] returns the empty string for the empty string
    only: every other input, also an all-whitespace one, gets a non-empty
    key. *)
Theorem normalize_user_empty_iff (s : string) :
  normalize_user s = "" ↔ s = "".
Proof.
  split; [|by intros ->]. unfold normalize_user.
  destruct s as [|a s']; [done|]. cbn [PyStr.is_empty].
  set (u := PyStr.strip (String a s')).
  destruct (PyStr.startswith u "@") eqn:Hat; cbn [andb].
  - destruct (PyStr.contains ":" u); [|done].
    intros Hu. by apply PyStrMore.startswith_nonempty in Hat.
  - destruct (PyStr.contains ":" u) eqn:Hc; cbn [negb]; [|done].
    intros Hu. by apply PyStrMore.contains_nonempty in Hc.
Qed.

(** X5: for a non-empty input, the key [normalize_user] returns contains
    the separator [":"] and has no whitespace at either end. *)
Theorem normalize_user_wellformed (s : string) :
  s ≠ "" →
  PyStr.contains ":" (normalize_user s) = true
  ∧ PyStr.strip (normalize_user s) = normalize_user s.
Proof.
  intros Hs. unfold normalize_user. rewrite is_empty_false by done.
  set (u := PyStr.strip s).
  assert (Hu : PyStr.strip u = u) by apply PyStrFacts.strip_idem.
  assert (Hq : ∀ x, PyStr.contains ":" ("@" +:+ x +:+ ":j5.chat") = true).
  { intros x. rewrite !PyStrFacts.contains_app. cbn. by rewrite orb_true_r. }
  destruct (PyStr.startswith u "@"); cbn [andb];
    destruct (PyStr.contains ":" u) eqn:Hc; cbn [negb];
    auto using PyStrFacts.strip_qualified.
Qed.

Lemma normalize_user_wellformed_witness :
  PyStr.contains ":" (normalize_user " bob ") = true
  ∧ PyStr.strip (normalize_user " bob ") = normalize_user " bob ".
Proof. apply (normalize_user_wellformed " bob "). discriminate. Defined.

(** X6: whitespace around the name does not matter: when something is left
    after stripping, the input and the stripped input get the same key. *)
Theorem normalize_user_strip (s : string) :
  PyStr.strip s ≠ "" → normalize_user (PyStr.strip s) = normalize_user s.
Proof.
  intros Hu. pose proof (PyStrMore.strip_nonempty s Hu) as Hs.
  unfold normalize_user. rewrite !is_empty_false by done.
  by rewrite PyStrFacts.strip_idem.
Qed.

Lemma normalize_user_strip_witness :
  normalize_user (PyStr.strip "  @bob ") = normalize_user "  @bob ".
Proof. apply (normalize_user_strip "  @bob "). discriminate. Defined.

(** X7: a bare local name, the name with the sigil, and the fully qualified
    key all denote the same account: for a name [x] without whitespace at
    its ends, without [":"] and not starting with ["@"], the three inputs
    [x], [@x] and [@x:j5.chat] are normalised to [@x:j5.chat]. *)
Theorem normalize_user_aliases (x : string) :
  x ≠ "" → PyStr.strip x = x →
  PyStr.contains ":" x = false → PyStr.startswith x "@" = false →
  normalize_user x = "@" +:+ x +:+ ":j5.chat"
  ∧ normalize_user ("@" +:+ x) = "@" +:+ x +:+ ":j5.chat"
  ∧ normalize_user ("@" +:+ x +:+ ":j5.chat") = "@" +:+ x +:+ ":j5.chat".
Proof.
  intros Hne Hs Hc Hat. split_and!.
  - unfold normalize_user. rewrite is_empty_false by done.
    by rewrite Hs, Hat, Hc.
  - unfold normalize_user. cbn [PyStr.is_empty String.app].
    change (String "@" x) with ("@" +:+ x).
    rewrite PyStrMore.strip_sigil by done.
    rewrite PyStrMore.startswith_sigil.
    change (PyStr.contains ":" ("@" +:+ x)) with (PyStr.contains ":" x).
    by rewrite Hc.
  - apply normalize_user_qualified.
Qed.

Lemma normalize_user_aliases_witness :
  normalize_user "bob" = "@bob:j5.chat"
  ∧ normalize_user "@bob" = "@bob:j5.chat"
  ∧ normalize_user "@bob:j5.chat" = "@bob:j5.chat".
Proof. apply (normalize_user_aliases "bob"); [discriminate|reflexivity..]. Defined.

(** ** The table *)

(** X8: a row written by [upsert_user] is the row [get_user_row] returns
    for that account afterwards, with [last_msg] 0 when none was given; the
    rows of all other accounts are as before, and reading changes
    nothing. *)
Theorem upsert_then_get (mxid other : string) (xp : Z) (last_msg : option Q)
    (w : World) :
  let w' := (upsert_user mxid xp last_msg w).2 in
  (get_user_row mxid w').1 = Some (mxid, xp, default 0%Q last_msg)
  ∧ (other ≠ mxid → (get_user_row other w').1 = (get_user_row other w).1)
  ∧ db (get_user_row other w').2 = db w'.
Proof.
  unfold upsert_user, get_user_row. cbn. split_and!.
  - rewrite lookup_insert_eq. by destruct last_msg.
  - intros Hne. by rewrite lookup_insert_ne.
  - done.
Qed.

Lemma upsert_then_get_witness :
  (get_user_row "@user:j5.chat"
     (upsert_user "@new:j5.chat" 7 None {| db := sample_db 10; log := [] |}).2).1
  = (get_user_row "@user:j5.chat" {| db := sample_db 10; log := [] |}).1.
Proof.
  apply (upsert_then_get "@new:j5.chat" "@user:j5.chat" 7 None
           {| db := sample_db 10; log := [] |}).
  discriminate.
Defined.

(** X9: [user_id] is a key: writing an account that has a row replaces the
    row and keeps the number of rows, writing a new account adds one row,
    and of two writes to the same account the later one stays. *)
Theorem upsert_one_row_per_user (mxid : string) (xp xp' : Z)
    (last_msg last_msg' : option Q) (w : World) :
  let w1 := (upsert_user mxid xp last_msg w).2 in
  (is_Some (db w !! mxid) → size (db w1) = size (db w))
  ∧ (db w !! mxid = None → size (db w1) = S (size (db w)))
  ∧ db (upsert_user mxid xp' last_msg' w1).2
    = db (upsert_user mxid xp' last_msg' w).2.
Proof.
  unfold upsert_user. cbn. split_and!.
  - intros [r Hr]. by eapply map_size_insert_Some.
  - intros Hr. by apply map_size_insert_None.
  - apply insert_insert_eq.
Qed.

Lemma upsert_one_row_per_user_witness :
  size (db (upsert_user "@user:j5.chat" 7 None
              {| db := sample_db 10; log := [] |}).2) = size (sample_db 10)
  ∧ size (db (upsert_user "@new:j5.chat" 7 None
                {| db := sample_db 10; log := [] |}).2) = S (size (sample_db 10)).
Proof.
  split.
  - apply (upsert_one_row_per_user "@user:j5.chat" 7 7 None None
             {| db := sample_db 10; log := [] |}).
    by eexists.
  - apply (upsert_one_row_per_user "@new:j5.chat" 7 7 None None
             {| db := sample_db 10; log := [] |}).
    reflexivity.
Defined.

(** ** The message handler, continued *)

Lemma stored_xp_insert d mxid xp last :
  stored_xp (<[mxid := {| row_xp := xp; row_last_msg := last |}]> d) mxid = xp.
Proof. unfold stored_xp. by rewrite lookup_insert_eq. Qed.

Lemma stored_last_msg_insert d mxid xp last :
  stored_last_msg (<[mxid := {| row_xp := xp; row_last_msg := last |}]> d) mxid
  = last.
Proof. unfold stored_last_msg. by rewrite lookup_insert_eq. Qed.

(** The three ways a call of [on_message] can go. *)
Lemma on_message_outcome (client_mxid : string) (now : Q) (evt : MessageEvent)
    (w : World) :
  let mxid := normalize_user (sender evt) in
  let xp := stored_xp (db w) mxid in
  on_message client_mxid now evt w = (tt, w)
  ∨ ((now - stored_last_msg (db w) mxid < COOLDOWN)%Q
     ∧ on_message client_mxid now evt w
       = (tt, {| db := db w; log := log w ++ [DbSelect mxid] |}))
  ∨ ((COOLDOWN <= now - stored_last_msg (db w) mxid)%Q
     ∧ ∃ rs, on_message client_mxid now evt w
             = (tt, {| db := <[mxid := {| row_xp := xp + XP_PER_MESSAGE;
                                          row_last_msg := now |}]> (db w);
                       log := log w ++ DbSelect mxid
                              :: DbUpsert mxid (xp + XP_PER_MESSAGE) now
                              :: (Reply <$> rs) |})).
Proof.
  intros mxid xp. destruct (qualifies_dec client_mxid evt) as [Hq|Hq].
  - destruct (Qlt_le_dec (now - stored_last_msg (db w) mxid) COOLDOWN)
      as [Hlt|Hge].
    + right. left. split; [done|]. by apply on_message_cooling.
    + right. right. split; [done|]. rewrite on_message_accepted by done.
      fold mxid xp. case_bool_decide; [by eexists [_]|by exists []].
  - left. by apply on_message_skipped.
Qed.

(** X10: a message changes at most the row of its sender: every other row
    is as before, and the sender's xp is either unchanged, with the table,
    or higher by [XP_PER_MESSAGE] with [last_msg] set to the time of the
    message; it never goes down. *)
Theorem on_message_frame (client_mxid : string) (now : Q) (evt : MessageEvent)
    (w : World) :
  let mxid := normalize_user (sender evt) in
  let w' := (on_message client_mxid now evt w).2 in
  (∀ k, k ≠ mxid → db w' !! k = db w !! k)
  ∧ (db w' = db w
     ∨ (stored_xp (db w') mxid = stored_xp (db w) mxid + XP_PER_MESSAGE
        ∧ stored_last_msg (db w') mxid = now))
  ∧ stored_xp (db w) mxid ≤ stored_xp (db w') mxid.
Proof.
  intros mxid w'. subst w'.
  destruct (on_message_outcome client_mxid now evt w)
    as [->|[[_ ->]|[_ [rs ->]]]]; cbn; fold mxid.
  - split_and!; [done|by left|done].
  - split_and!; [done|by left|done].
  - rewrite stored_xp_insert, stored_last_msg_insert.
    split_and!; [|by right|unfold XP_PER_MESSAGE; lia].
    intros k Hk. by rewrite lookup_insert_ne.
Qed.

(** X11: the first message of an account without a row is measured against
    [last_msg = 0]: when the clock shows at least [COOLDOWN] the row
    [(XP_PER_MESSAGE, now)] is created and nothing is announced, and when it
    shows less nothing is created. *)
Theorem on_message_new_account (client_mxid : string) (now : Q)
    (evt : MessageEvent) (d : gmap string Row) :
  let mxid := normalize_user (sender evt) in
  qualifies client_mxid evt → d !! mxid = None →
  ((COOLDOWN <= now)%Q →
   (run (on_message client_mxid now evt) d).2
   = {| db := <[mxid := {| row_xp := XP_PER_MESSAGE; row_last_msg := now |}]> d;
        log := [DbSelect mxid; DbUpsert mxid XP_PER_MESSAGE now] |})
  ∧ ((now < COOLDOWN)%Q →
     (run (on_message client_mxid now evt) d).2
     = {| db := d; log := [DbSelect mxid] |}).
Proof.
  intros mxid Hq Hnone. unfold run.
  assert (Hl : stored_last_msg d mxid = 0%Q)
    by (unfold stored_last_msg; by rewrite Hnone).
  assert (Hx : stored_xp d mxid = 0) by (unfold stored_xp; by rewrite Hnone).
  split; intros Hnow.
  - rewrite on_message_accepted by (try done; cbn; fold mxid; rewrite Hl; lra).
    cbn. fold mxid. by rewrite Hx.
  - rewrite on_message_cooling by (try done; cbn; fold mxid; rewrite Hl; lra).
    done.
Qed.

Lemma on_message_new_account_witness :
  (run (on_message "@xpbot:j5.chat" 1700000000%Q (sample_event "@new:j5.chat"))
     (sample_db 10)).2
  = {| db := <["@new:j5.chat" := {| row_xp := 5; row_last_msg := 1700000000%Q |}]>
               (sample_db 10);
       log := [DbSelect "@new:j5.chat"; DbUpsert "@new:j5.chat" 5 1700000000%Q] |}.
Proof.
  apply (on_message_new_account "@xpbot:j5.chat" 1700000000%Q
           (sample_event "@new:j5.chat") (sample_db 10)).
  - split_and!; [reflexivity|discriminate|by vm_compute].
  - reflexivity.
  - discriminate.
Defined.

(** X12: messages without a body, messages of the bot itself and messages
    of the ignored accounts have no effect at all, however many arrive: the
    table is neither read nor written and nothing is sent. *)
Theorem on_message_ignored (client_mxid : string)
    (evts : list (Q * MessageEvent)) (w : World) :
  Forall (λ p, no_body p.2 = true ∨ sender p.2 = client_mxid
               ∨ sender p.2 ∈ IGNORE_USERS) evts →
  for_each (λ p, on_message client_mxid p.1 p.2) evts w = (tt, w).
Proof.
  revert w. induction evts as [|[now evt] evts IH]; intros w Hall; [done|].
  apply Forall_cons in Hall as [Hev Hall]. cbn [for_each]. unfold bind at 1.
  rewrite on_message_skipped; [by apply IH|].
  intros (Hb & Hs & Hi). cbn [fst snd] in *.
  destruct Hev as [Hev|[Hev|Hev]]; [congruence|done|done].
Qed.

Lemma on_message_ignored_witness :
  for_each (λ p, on_message "@xpbot:j5.chat" p.1 p.2)
    [(105%Q, sample_event "@xpbot:j5.chat");
     (106%Q, sample_event "@karma:j5.chat");
     (107%Q, {| sender := "@user:j5.chat"; content := None |});
     (108%Q, {| sender := "@user:j5.chat";
                content := Some {| body := Some "" |} |})]
    {| db := sample_db 10; log := [] |}
  = (tt, {| db := sample_db 10; log := [] |}).
Proof.
  apply (on_message_ignored "@xpbot:j5.chat").
  apply Forall_cons; split; [right; by left|].
  apply Forall_cons; split; [right; right; by vm_compute|].
  apply Forall_cons; split; [by left|].
  apply Forall_cons; split; [by left|]. apply Forall_nil_2.
Defined.

Lemma award_times_app l1 l2 :
  award_times (l1 ++ l2) = award_times l1 ++ award_times l2.
Proof. apply omap_app. Qed.

Lemma award_times_replies rs : award_times (Reply <$> rs) = [].
Proof. by induction rs. Qed.

Lemma for_each_awards (client_mxid : string) (evt : MessageEvent)
    (nows : list Q) (w : World) :
  let mxid := normalize_user (sender evt) in
  ∃ d' ev,
    for_each (λ now, on_message client_mxid now evt) nows w
    = (tt, {| db := d'; log := log w ++ ev |})
    ∧ spaced (stored_last_msg (db w) mxid) (award_times ev)
    ∧ award_times ev `sublist_of` nows
    ∧ stored_xp d' mxid
      = stored_xp (db w) mxid + XP_PER_MESSAGE * Z.of_nat (length (award_times ev)).
Proof.
  intros mxid. revert w. induction nows as [|now nows IH]; intros w.
  - exists (db w), []. rewrite app_nil_r. split_and!; try done.
    + by destruct w.
    + cbn. lia.
  - cbn [for_each]. unfold bind at 1.
    destruct (on_message_outcome client_mxid now evt w)
      as [->|[[_ ->]|[Hge [rs ->]]]]; fold mxid.
    + destruct (IH w) as (d' & ev & -> & Hsp & Hsub & Hxp).
      exists d', ev. split_and!; try done. by apply sublist_cons.
    + destruct (IH {| db := db w; log := log w ++ [DbSelect mxid] |})
        as (d' & ev & -> & Hsp & Hsub & Hxp). cbn in *.
      exists d', (DbSelect mxid :: ev). rewrite <- app_assoc.
      split_and!; try done. by apply sublist_cons.
    + match goal with |- context [for_each _ _ ?w1] =>
        destruct (IH w1) as (d' & ev & -> & Hsp & Hsub & Hxp) end.
      cbn in Hsp, Hxp. rewrite stored_last_msg_insert in Hsp.
      rewrite stored_xp_insert in Hxp.
      exists d', (DbSelect mxid
                  :: DbUpsert mxid (stored_xp (db w) mxid + XP_PER_MESSAGE) now
                  :: (Reply <$> rs) ++ ev).
      cbn [log]. rewrite <- app_assoc. cbn [app].
      assert (Hts : award_times (DbSelect mxid
                  :: DbUpsert mxid (stored_xp (db w) mxid + XP_PER_MESSAGE) now
                  :: (Reply <$> rs) ++ ev) = now :: award_times ev).
      { change (DbSelect mxid :: DbUpsert mxid ?x now :: ?l)
          with ([DbSelect mxid; DbUpsert mxid x now] ++ l).
        by rewrite !award_times_app, award_times_replies. }
      rewrite Hts. split_and!; try done.
      * by apply sublist_skip.
      * rewrite Hxp. cbn [length]. lia.
Qed.

(** X13: however often and whenever one account writes, the awards it
    receives are at least [COOLDOWN] apart, the first one at least
    [COOLDOWN] after the stored [last_msg]; the award times are among the
    message times, in order; and the account's xp grows by exactly
    [XP_PER_MESSAGE] per award. *)
Theorem awards_spaced (client_mxid : string) (evt : MessageEvent)
    (nows : list Q) (d : gmap string Row) :
  let mxid := normalize_user (sender evt) in
  let w' := (run (for_each (λ now, on_message client_mxid now evt) nows) d).2 in
  let ts := award_times (log w') in
  spaced (stored_last_msg d mxid) ts
  ∧ ts `sublist_of` nows
  ∧ stored_xp (db w') mxid
    = stored_xp d mxid + XP_PER_MESSAGE * Z.of_nat (length ts).
Proof.
  intros mxid. unfold run.
  by destruct (for_each_awards client_mxid evt nows {| db := d; log := [] |})
    as (d' & ev & -> & Hsp & Hsub & Hxp).
Qed.

Example awards_spaced_run :
  award_times
    (log (run (for_each (λ now, on_message "@xpbot:j5.chat" now
                                  (sample_event "@user:j5.chat"))
                 [101; 105; 106; 109; 110; 120]%Q) (sample_db 10)).2)
  = [105; 110; 120]%Q.
Proof. reflexivity. Qed.

Lemma stored_xp_nonneg d mxid : xp_nonneg d → 0 ≤ stored_xp d mxid.
Proof.
  intros Hd. unfold stored_xp. destruct (d !! mxid) as [r|] eqn:E; [|done].
  apply (Hd _ _ E).
Qed.

(** X14: messages keep xp non-negative: if no row of the table has negative
    xp, then after any sequence of messages, of any senders, no row has. *)
Theorem on_message_keeps_xp_nonneg (client_mxid : string)
    (evts : list (Q * MessageEvent)) (w : World) :
  xp_nonneg (db w) →
  xp_nonneg (db (for_each (λ p, on_message client_mxid p.1 p.2) evts w).2).
Proof.
  revert w. induction evts as [|[now evt] evts IH]; intros w Hw; [done|].
  cbn [for_each]. unfold bind at 1. cbn [fst snd].
  destruct (on_message_outcome client_mxid now evt w)
    as [->|[[_ ->]|[_ [rs ->]]]]; apply IH; try done.
  cbn. apply map_Forall_insert_2; [|done]. cbn.
  pose proof (stored_xp_nonneg _ (normalize_user (sender evt)) Hw).
  unfold XP_PER_MESSAGE. lia.
Qed.

Lemma on_message_keeps_xp_nonneg_witness :
  xp_nonneg
    (db (for_each (λ p, on_message "@xpbot:j5.chat" p.1 p.2)
           [(105%Q, sample_event "@user:j5.chat");
            (106%Q, sample_event "@new:j5.chat")]
           {| db := sample_db 10; log := [] |}).2).
Proof.
  apply (on_message_keeps_xp_nonneg "@xpbot:j5.chat").
  apply map_Forall_singleton. cbn. lia.
Defined.

(** ** The commands, continued *)

(** X15: the commands [level], [profile], [leaderboard] and [xp] never
    write: for every caller and argument, and whatever the store answers,
    the table is as before and no upsert is logged; [xp] does not even read
    the table. *)
Theorem commands_read_only (q : StoreOrder) (evt : MessageEvent)
    (user : option string) (w : World) :
  (∀ c, c ∈ [cmd_level evt; cmd_profile evt user; cmd_leaderboard q evt;
             cmd_xp_help evt] →
        ∃ ev, c w = (tt, {| db := db w; log := log w ++ ev |})
              ∧ award_times ev = [])
  ∧ ∃ text, cmd_xp_help evt w
            = (tt, {| db := db w; log := log w ++ [Reply text] |}).
Proof.
  split.
  - intros c Hc.
    repeat (apply elem_of_cons in Hc as [->|Hc]); [| | | |inversion Hc].
    + exists [DbSelect (normalize_user (sender evt)); Reply
               ("⭐ " +:+ sender evt +:+ ": Level "
                +:+ pretty (calc_level (stored_xp (db w) (normalize_user (sender evt))))
                +:+ " | XP: "
                +:+ pretty (stored_xp (db w) (normalize_user (sender evt)))
                +:+ " "
                +:+ get_badge (calc_level (stored_xp (db w) (normalize_user (sender evt)))))].
      split; [|done]. unfold cmd_level, bind, get_user_row, reply, emit, stored_xp.
      cbn. rewrite <- app_assoc. by destruct (db w !! _).
    + exists [DbSelect (profile_target evt user);
              Reply (profile_text (profile_target evt user)
                       (stored_xp (db w) (profile_target evt user)))].
      split; [|done]. unfold cmd_profile, bind, get_user_row, reply, emit, stored_xp.
      cbn. rewrite <- app_assoc. by destruct (db w !! _).
    + unfold cmd_leaderboard. destruct (negb (is_admin_or_mod evt)).
      * by eexists [_].
      * unfold bind, _get_top, reply, emit. cbn.
        case_bool_decide; cbn [db log]; eexists [_; _]; by rewrite <- app_assoc.
    + unfold cmd_xp_help. destruct (is_admin_or_mod evt); by eexists [_].
  - unfold cmd_xp_help. destruct (is_admin_or_mod evt); by eexists.
Qed.

Lemma cmd_profile_run (evt : MessageEvent) (user : option string) (w : World) :
  let target := profile_target evt user in
  cmd_profile evt user w
  = (tt, {| db := db w;
            log := log w ++ [DbSelect target;
                             Reply (profile_text target (stored_xp (db w) target))] |}).
Proof.
  unfold cmd_profile, bind, get_user_row, reply, emit, stored_xp.
  cbn. rewrite <- app_assoc. by destruct (db w !! _).
Qed.

(** X16: the profile of an account without a row shows level 0, 0 XP and no
    badge, and asking for it does not create the row. *)
Theorem cmd_profile_unknown (evt : MessageEvent) (user : option string)
    (d : gmap string Row) :
  let target := profile_target evt user in
  d !! target = None →
  (run (cmd_profile evt user) d).2
  = {| db := d;
       log := [DbSelect target;
               Reply ("👤 " +:+ target +:+ ": Level 0 | XP: 0 ")] |}.
Proof.
  intros target Hnone. unfold run. rewrite cmd_profile_run. cbn.
  fold target. unfold stored_xp. by rewrite Hnone.
Qed.

Lemma cmd_profile_unknown_witness :
  (run (cmd_profile (sample_event "@user:j5.chat") (Some "nobody")) (sample_db 10)).2
  = {| db := sample_db 10;
       log := [DbSelect "@nobody:j5.chat";
               Reply "👤 @nobody:j5.chat: Level 0 | XP: 0 "] |}.
Proof.
  apply (cmd_profile_unknown (sample_event "@user:j5.chat") (Some "nobody")
           (sample_db 10)).
  reflexivity.
Defined.

Lemma cmd_setxp_run (int : string → option Z) (evt : MessageEvent)
    (user xp : string) (xp_val : Z) (w : World) :
  sender evt ∈ ADMINS → int xp = Some xp_val →
  let target := normalize_user user in
  let last := stored_last_msg (db w) target in
  cmd_setxp int evt user xp w
  = (tt, {| db := <[target := {| row_xp := xp_val; row_last_msg := last |}]> (db w);
            log := log w ++ DbSelect target :: DbUpsert target xp_val last
                   :: Reply (setxp_text target xp_val)
                   :: if bool_decide (calc_level xp_val
                                      > calc_level (stored_xp (db w) target))
                      then [Reply (level_up_text target (calc_level xp_val)
                                     (get_badge (calc_level xp_val)))]
                      else [] |}).
Proof.
  intros Ha Hint target last. apply is_admin_or_mod_true in Ha.
  unfold cmd_setxp. rewrite Ha, Hint. cbn [negb]. fold target.
  unfold bind, get_user_row, upsert_user, reply, emit, ret. cbn.
  subst last. unfold stored_last_msg, stored_xp.
  destruct (db w !! target); cbn; case_bool_decide; cbn;
    by rewrite <- ?app_assoc.
Qed.

(** X17: what an admin's [setxp] sends: always the confirmation with the
    new value, its level and badge, followed by the level-up text exactly
    when the new level is above the level of the xp stored before; setting
    a value that is not above the stored one announces nothing. *)
Theorem cmd_setxp_replies (int : string → option Z) (evt : MessageEvent)
    (user xp : string) (xp_val : Z) (d : gmap string Row) :
  sender evt ∈ ADMINS → int xp = Some xp_val →
  let target := normalize_user user in
  let out := replies (log (run (cmd_setxp int evt user xp) d).2) in
  let confirm := setxp_text target xp_val in
  let announce := level_up_text target (calc_level xp_val)
                    (get_badge (calc_level xp_val)) in
  (calc_level xp_val > calc_level (stored_xp d target) →
   out = [confirm; announce])
  ∧ (calc_level xp_val ≤ calc_level (stored_xp d target) → out = [confirm])
  ∧ (xp_val ≤ stored_xp d target → out = [confirm]).
Proof.
  intros Ha Hint target out confirm announce. subst out. unfold run.
  rewrite (cmd_setxp_run int evt user xp xp_val) by done. cbn. fold target.
  assert (Hmono : xp_val ≤ stored_xp d target →
                  calc_level xp_val ≤ calc_level (stored_xp d target)).
  { intros Hle. unfold calc_level, XP_PER_LEVEL. apply Z.div_le_mono; lia. }
  split_and!; intros H; case_bool_decide; (done || lia).
Qed.

Lemma cmd_setxp_replies_witness :
  replies (log (run (cmd_setxp PyInt.int_decimal (sample_event "@admin:j5.chat")
                       "user" "250") (sample_db 10)).2)
  = ["✅ XP set for @user:j5.chat: 250 (Level 2 🥉 Bronze)";
     "🎉 @user:j5.chat leveled up to **Level 2**! 🥉 Bronze"]
  ∧ replies (log (run (cmd_setxp PyInt.int_decimal (sample_event "@admin:j5.chat")
                         "user" "-7") (sample_db 10)).2)
    = ["✅ XP set for @user:j5.chat: -7 (Level -1 )"].
Proof.
  split.
  - apply (cmd_setxp_replies PyInt.int_decimal (sample_event "@admin:j5.chat")
             "user" "250" 250 (sample_db 10)); [by vm_compute|reflexivity|].
    reflexivity.
  - apply (cmd_setxp_replies PyInt.int_decimal (sample_event "@admin:j5.chat")
             "user" "-7" (-7) (sample_db 10)); [by vm_compute|reflexivity|].
    discriminate.
Defined.

Lemma cmd_level_run (evt : MessageEvent) (w : World) :
  let mxid := normalize_user (sender evt) in
  let xp := stored_xp (db w) mxid in
  cmd_level evt w
  = (tt, {| db := db w;
            log := log w ++ [DbSelect mxid;
                             Reply ("⭐ " +:+ sender evt +:+ ": Level "
                                    +:+ pretty (calc_level xp) +:+ " | XP: "
                                    +:+ pretty xp +:+ " "
                                    +:+ get_badge (calc_level xp))] |}).
Proof.
  unfold cmd_level, bind, get_user_row, reply, emit, stored_xp.
  cbn. rewrite <- app_assoc. by destruct (db w !! _).
Qed.



(** X19: an award shows at once: after a message that was accepted, the
    sender's [level] command reports the xp of before plus
    [XP_PER_MESSAGE]. *)
Theorem award_then_level (client_mxid : string) (now : Q) (evt : MessageEvent)
    (d : gmap string Row) :
  let mxid := normalize_user (sender evt) in
  let xp := stored_xp d mxid + XP_PER_MESSAGE in
  qualifies client_mxid evt → (COOLDOWN <= now - stored_last_msg d mxid)%Q →
  let d1 := db (run (on_message client_mxid now evt) d).2 in
  replies (log (run (cmd_level evt) d1).2)
  = ["⭐ " +:+ sender evt +:+ ": Level " +:+ pretty (calc_level xp)
     +:+ " | XP: " +:+ pretty xp +:+ " " +:+ get_badge (calc_level xp)].
Proof.
  intros mxid xp Hq Hge d1. subst d1. unfold run.
  rewrite on_message_accepted by done. rewrite cmd_level_run.
  cbn [db log snd app replies omap]. fold mxid.
  by rewrite stored_xp_insert.
Qed.

Lemma award_then_level_witness :
  replies (log (run (cmd_level (sample_event "@user:j5.chat"))
                  (db (run (on_message "@xpbot:j5.chat" 105%Q
                              (sample_event "@user:j5.chat")) (sample_db 98)).2)).2)
  = ["⭐ @user:j5.chat: Level 1 | XP: 103 🥉 Bronze"].
Proof.
  apply (award_then_level "@xpbot:j5.chat" 105%Q (sample_event "@user:j5.chat")
           (sample_db 98)).
  - split_and!; [reflexivity|discriminate|by vm_compute].
  - discriminate.
Defined.

(** X20: repeating an admin's [setxp] changes nothing more: the second
    call leaves the table as the first one made it and sends the
    confirmation only, never a second level-up text. *)
Theorem cmd_setxp_twice (int : string → option Z) (evt : MessageEvent)
    (user xp : string) (xp_val : Z) (d : gmap string Row) :
  sender evt ∈ ADMINS → int xp = Some xp_val →
  let d1 := db (run (cmd_setxp int evt user xp) d).2 in
  db (run (cmd_setxp int evt user xp) d1).2 = d1
  ∧ replies (log (run (cmd_setxp int evt user xp) d1).2)
    = [setxp_text (normalize_user user) xp_val].
Proof.
  intros Ha Hint d1. subst d1. unfold run.
  rewrite !(cmd_setxp_run int evt user xp xp_val) by done.
  cbn [db log snd app]. rewrite stored_last_msg_insert, stored_xp_insert.
  split; [apply insert_insert_eq|]. case_bool_decide; [lia|done].
Qed.

Lemma cmd_setxp_twice_witness :
  replies (log (run (cmd_setxp PyInt.int_decimal (sample_event "@admin:j5.chat")
                       "user" "250")
                  (db (run (cmd_setxp PyInt.int_decimal
                              (sample_event "@admin:j5.chat") "user" "250")
                         (sample_db 10)).2)).2)
  = ["✅ XP set for @user:j5.chat: 250 (Level 2 🥉 Bronze)"].
Proof.
  apply (cmd_setxp_twice PyInt.int_decimal (sample_event "@admin:j5.chat")
           "user" "250" 250 (sample_db 10)); [by vm_compute|reflexivity].
Defined.

(** X21: [setxp] does not touch the cooldown: after an admin has set the xp
    of an account, a message of that account inside the window of its last
    award is still rejected and the set value stays, and a qualifying
    message outside the window is awarded on top of the set value. *)
Theorem setxp_then_message (int : string → option Z) (client_mxid : string)
    (evt msg : MessageEvent) (user xp : string) (xp_val : Z) (now : Q)
    (d : gmap string Row) :
  sender evt ∈ ADMINS → int xp = Some xp_val →
  normalize_user (sender msg) = normalize_user user →
  let target := normalize_user user in
  let last := stored_last_msg d target in
  let d1 := db (run (cmd_setxp int evt user xp) d).2 in
  let d2 := db (run (on_message client_mxid now msg) d1).2 in
  ((now - last < COOLDOWN)%Q → d2 = d1 ∧ stored_xp d2 target = xp_val)
  ∧ (qualifies client_mxid msg → (COOLDOWN <= now - last)%Q →
     d2 !! target = Some {| row_xp := xp_val + XP_PER_MESSAGE;
                            row_last_msg := now |}).
Proof.
  intros Ha Hint Hkey target last d1 d2. subst d1 d2. unfold run.
  rewrite (cmd_setxp_run int evt user xp xp_val) by done. cbn [db snd].
  fold target last. split.
  - intros Hlt.
    destruct (on_message_rejected client_mxid now msg
                {| db := <[target := {| row_xp := xp_val; row_last_msg := last |}]> d;
                   log := [] |}) as (sel & -> & _).
    + cbn [db]. rewrite Hkey. fold target. by rewrite stored_last_msg_insert.
    + cbn [db snd]. by rewrite stored_xp_insert.
  - intros Hq Hge. rewrite on_message_accepted; [|done|].
    + cbn [db snd]. rewrite Hkey. fold target.
      by rewrite stored_xp_insert, lookup_insert_eq.
    + cbn [db]. rewrite Hkey. fold target. by rewrite stored_last_msg_insert.
Qed.

Lemma setxp_then_message_witness :
  db (run (on_message "@xpbot:j5.chat" 104%Q (sample_event "@user:j5.chat"))
        (db (run (cmd_setxp PyInt.int_decimal (sample_event "@admin:j5.chat")
                    "user" "250") (sample_db 10)).2)).2
  = db (run (cmd_setxp PyInt.int_decimal (sample_event "@admin:j5.chat")
               "user" "250") (sample_db 10)).2.
Proof.
  apply (setxp_then_message PyInt.int_decimal "@xpbot:j5.chat"
           (sample_event "@admin:j5.chat") (sample_event "@user:j5.chat")
           "user" "250" 250 104%Q (sample_db 10));
    [by vm_compute|reflexivity|reflexivity|reflexivity].
Defined.

(** X22: an admin's [leaderboard] answers that there is no data exactly
    when the table is empty, whatever order the store gives to its rows. *)
Theorem cmd_leaderboard_no_data (q : StoreOrder) (evt : MessageEvent)
    (d : gmap string Row) :
  answers_order_by q → sender evt ∈ ADMINS →
  replies (log (run (cmd_leaderboard q evt) d).2) = ["📊 No data yet."] ↔ d = ∅.
Proof.
  intros Hq Ha. unfold run. rewrite cmd_leaderboard_run by done.
  cbn [db log snd app replies omap]. unfold leaderboard_reply.
  pose proof (select_top_nil q Hq {| db := d; log := [] |}) as Hnil.
  cbn [db] in Hnil. case_bool_decide as Hrows.
  - split; [intros _|done]. by apply Hnil.
  - split; [|by rewrite <- Hnil].
    destruct (select_top q _) as [|r rows]; [done|]. discriminate.
Qed.

Lemma cmd_leaderboard_no_data_witness :
  replies (log (run (cmd_leaderboard insertion_order
                       (sample_event "@admin:j5.chat")) ∅).2)
  = ["📊 No data yet."].
Proof.
  apply (cmd_leaderboard_no_data insertion_order (sample_event "@admin:j5.chat") ∅);
    [apply insertion_order_answers|by vm_compute|reflexivity].
Defined.

Lemma level_up_near_boundary (xp : Z) :
  calc_level (xp + XP_PER_MESSAGE) > calc_level xp ↔ 95 ≤ xp `mod` XP_PER_LEVEL.
Proof.
  pose proof (calc_level_bounds xp). pose proof (calc_level_bounds (xp + 5)).
  unfold XP_PER_MESSAGE, XP_PER_LEVEL in *.
  pose proof (Z.div_mod xp 100 ltac:(lia)) as Hdm.
  pose proof (Z.mod_pos_bound xp 100 ltac:(lia)).
  change (xp `div` 100) with (calc_level xp) in Hdm. lia.
Qed.

(** X23: an accepted award announces a level-up exactly when the stored xp
    was within [XP_PER_MESSAGE] below the next multiple of [XP_PER_LEVEL],
    that is, when its remainder modulo 100 is at least 95. *)
Theorem level_up_iff_near_boundary (client_mxid : string) (now : Q)
    (evt : MessageEvent) (d : gmap string Row) :
  let mxid := normalize_user (sender evt) in
  qualifies client_mxid evt → (COOLDOWN <= now - stored_last_msg d mxid)%Q →
  replies (log (run (on_message client_mxid now evt) d).2) ≠ []
  ↔ 95 ≤ stored_xp d mxid `mod` XP_PER_LEVEL.
Proof.
  intros mxid Hq Hge. unfold run. rewrite on_message_accepted by done.
  cbn. fold mxid. rewrite <- level_up_near_boundary.
  case_bool_decide; cbn; split; done.
Qed.

Lemma level_up_iff_near_boundary_witness :
  replies (log (run (on_message "@xpbot:j5.chat" 105%Q
                       (sample_event "@user:j5.chat")) (sample_db 295)).2) ≠ [].
Proof.
  apply (level_up_iff_near_boundary "@xpbot:j5.chat" 105%Q
           (sample_event "@user:j5.chat") (sample_db 295)).
  - split_and!; [reflexivity|discriminate|by vm_compute].
  - discriminate.
  - by vm_compute.
Defined.
